(** * GeneTrust: the single-base edit predictor of [genepredictor/app.py]

    A shallow embedding of the prediction path of the service:
    [get_token_embeddings], [generate_reference_token_embedding],
    [find_problematic_position], [choose_best_alternate_base],
    [get_sequence_score], [predict_edit] and the [/predict] handler
    [predict_sequence].

    - Python [str] values are lists of characters ([list ascii]); the
      model covers request strings made of ASCII characters, on which
      [str.upper] maps [a-z] to [A-Z] and leaves every other character
      alone.  The two message literals that carry an emoji are kept as
      their UTF-8 bytes.
    - Python [float] values (what [Tensor.item()] hands back, and what
      [int(score * 100)] works on) are IEEE-754 binary64 numbers, taken
      from the Standard Library's [SpecFloat].
    - The tokenizer, the transformer and the two torch reductions the code
      calls ([Tensor.mean(dim=0)] and cosine similarity) are not code of
      this repository: they are the variables of the section
      [GenePredictor].
    - Exceptions and the encoder invocations are threaded through a small
      monad: a computation takes the log of sequences embedded so far and
      gives back an outcome and the extended log. *)

From Stdlib Require Import String Ascii.
From Stdlib Require Import ZArith List Bool Lia PeanoNat.
From Stdlib Require Import DecimalString.
From Stdlib Require Import Floats.SpecFloat.
Import ListNotations.

Set Implicit Arguments.

(** ** Python strings *)

Module Py.

Definition str := list ascii.

Definition lit (s : string) : str := list_ascii_of_string s.

Definition is_ascii_lower (c : ascii) : bool :=
    let n := N_of_ascii c in ((97 <=? n) && (n <=? 122))%N.

  (** [c.upper()] for an ASCII character. *)
Definition upper_char (c : ascii) : ascii :=
    if is_ascii_lower c then ascii_of_N (N_of_ascii c - 32) else c.

  (** [s.upper()] *)
Definition upper (s : str) : str := map upper_char s.

  (** [s[:i]] and [s[i:]] for a non-negative [i]. *)
Definition slice_to (s : str) (i : nat) : str := firstn i s.
Definition slice_from (s : str) (i : nat) : str := skipn i s.

  (** [s[:i] + c + s[i+1:]] *)
Definition replace_at (s : str) (i : nat) (c : ascii) : str :=
    slice_to s i ++ [c] ++ slice_from s (i + 1).

  (** [c * n] for a one-character string [c]. *)
Definition times (c : ascii) (n : nat) : str := repeat c n.

  (** [c in l] *)
Definition contains (l : list ascii) (c : ascii) : bool :=
    existsb (Ascii.eqb c) l.

  (** What an f-string prints for an [int]. *)
Definition str_of_int (z : Z) : str :=
    lit (NilZero.string_of_int (Z.to_int z)).

End Py.

(** ** Exceptions *)

Inductive exn : Type :=
| IndexError      (* [seq[idx]] out of range *)
| TypeError       (* [str + None] *)
| ValueError      (* [int(nan)] *)
| OverflowError   (* [int(inf)] *)
| RuntimeError.   (* raised by torch: shapes that do not broadcast, empty reductions *)

(** ** Python floats: IEEE-754 binary64 *)

Module F64.

Definition prec : Z := 53.
Definition emax : Z := 1024.

Definition float := spec_float.

Definition of_Z (z : Z) : float := binary_normalize prec emax z 0 false.

Definition mul : float -> float -> float := SFmul prec emax.
Definition div : float -> float -> float := SFdiv prec emax.
Definition add : float -> float -> float := SFadd prec emax.
Definition sqrt : float -> float := SFsqrt prec emax.

  (** [x < y], false as soon as one side is NaN. *)
Definition ltb : float -> float -> bool := SFltb.
Definition leb : float -> float -> bool := SFleb.

Definition is_nan (x : float) : bool :=
    match x with S754_nan => true | _ => false end.

Definition valid : float -> bool := valid_binary prec emax.

Definition zero : float := S754_zero false.
Definition one : float := Eval vm_compute in of_Z 1.
Definition minus_one : float := Eval vm_compute in of_Z (-1).
Definition hundred : float := Eval vm_compute in of_Z 100.
Definition nan : float := S754_nan.

  (** The integer part of a finite float, digits after the binary point
      dropped: [m * 2^e] for [e >= 0], [m / 2^(-e)] otherwise, with the
      sign put back. *)
Definition trunc_finite (s : bool) (m : positive) (e : Z) : Z :=
    let a := if (0 <=? e)%Z then Z.shiftl (Zpos m) e else Z.shiftr (Zpos m) (- e) in
    if s then (- a)%Z else a.

  (** Python's [int(x)]. *)
Definition int_of_float (x : float) : exn + Z :=
    match x with
    | S754_nan => inl ValueError
    | S754_infinity _ => inl OverflowError
    | S754_zero _ => inr 0%Z
    | S754_finite s m e => inr (trunc_finite s m e)
    end.

End F64.

Definition float : Type := spec_float.

(** ** Tensors *)

Definition tensor1 := list float.       (* one vector *)
Definition tensor2 := list tensor1.     (* a matrix, one row per token *)

(** ** Computations: exceptions and the log of encoder calls *)

Inductive outcome (A : Type) : Type :=
| Return (a : A)
| Raise (e : exn).

Arguments Return {A} a.
Arguments Raise {A} e.

(** The sequences handed to the encoder so far, oldest first. *)
Definition calls := list Py.str.

Definition M (A : Type) : Type := calls -> outcome A * calls.

Definition ret {A} (a : A) : M A := fun log => (Return a, log).

Definition raise {A} (e : exn) : M A := fun log => (Raise e, log).

Definition bind {A B} (m : M A) (k : A -> M B) : M B :=
  fun log =>
    match m log with
    | (Return a, log') => k a log'
    | (Raise e, log') => (Raise e, log')
    end.

Definition lift {A} (r : exn + A) : M A :=
  match r with inl e => raise e | inr a => ret a end.

Declare Scope py_scope.
Delimit Scope py_scope with py.
Notation "x <- m ;; k" := (bind m (fun x => k))
  (at level 100, m at next level, right associativity) : py_scope.
Notation "' p <- m ;; k" := (bind m (fun p => k))
  (at level 100, p pattern, m at next level, right associativity) : py_scope.
Open Scope py_scope.

(** A [for] loop that updates an accumulator. *)
Fixpoint for_each {A S} (body : S -> A -> M S) (l : list A) (s : S) : M S :=
  match l with
  | [] => ret s
  | a :: l' => (s' <- body s a ;; for_each body l' s')
  end.

(** ** The torch operations the code relies on *)

(** The order [torch.argmin] reduces with: a NaN comes before every number,
    otherwise the IEEE comparison decides. *)
Definition less_or_nan (a b : float) : bool :=
  if F64.is_nan a then negb (F64.is_nan b) else F64.ltb a b.

(** The running best of an [argmin] scan: a later element replaces the best
    only when it is strictly before it, so the first minimum wins. *)
Fixpoint argmin_from (best_i : nat) (best : float) (i : nat) (l : list float) : nat :=
  match l with
  | [] => best_i
  | x :: l' =>
      if less_or_nan x best then argmin_from i x (S i) l'
      else argmin_from best_i best (S i) l'
  end.

(** [torch.argmin(t).item()] on a one-dimensional tensor. *)
Definition argmin (t : list float) : exn + nat :=
  match t with
  | [] => inl RuntimeError
  | x :: l => inr (argmin_from 0 x 1 l)
  end.

(** [t.size(0)] *)
Definition size0 (t : tensor2) : nat := length t.

(** [torch.zeros(n, d)] *)
Definition zeros (n d : nat) : tensor2 := repeat (repeat F64.zero d) n.

(** The three shapes in which the transformer may hand back its hidden
    states (for the batch of one that [get_token_embeddings] submits). *)
Inductive model_output : Type :=
| AsTuple (first : tensor2)
| WithLastHiddenState (last_hidden_state : tensor2)
| AsTensor (hidden : tensor2).

Definition BASES : list ascii := ["A"; "T"; "C"; "G"]%char.

Definition REFERENCE_SEQUENCES : list Py.str :=
  [ Py.lit "CTACTTCAAATGGGGCTACA";
    Py.lit "AGTCGTACTGCATGCTCGTA";
    Py.lit "ATCGCTGACAATGCTGGACA" ].

(** The body of a successful [/predict] response. *)
Record PredictionResult : Type := {
  originalSequence : Py.str;
  editedSequence : Py.str;
  changeIndicator : Py.str;
  efficiency : Z;
  changedPosition : nat;
  originalBase : ascii;
  newBase : ascii;
  message : Py.str;
  originalEfficiency : Z
}.

Inductive response : Type :=
| Ok200 (body : PredictionResult)
| Error400 (error : Py.str)
| Error500 (error : exn).

Section GenePredictor.

  (** [tokenizer(sequence, ...)] followed by [model( **inputs)]. *)
Variable model : Py.str -> model_output.
  (** [t.mean(dim=0)] on a matrix: the mean of its rows. *)
Variable mean_dim0 : tensor2 -> tensor1.
  (** Cosine similarity of two vectors, as a Python float. *)
Variable cosine : tensor1 -> tensor1 -> float.
  (** [emb.size(1)], the width of the encoder's vectors. *)
Variable hidden_size : nat.

Definition get_token_embeddings (sequence : Py.str) : M tensor2 :=
    fun log =>
      let outputs := model sequence in
      let hidden_states :=
        match outputs with
        | AsTuple first => first
        | WithLastHiddenState last_hidden_state => last_hidden_state
        | AsTensor hidden => hidden
        end in
      (Return hidden_states, log ++ [sequence]).

  (** [torch.stack(ts).mean(dim=0)]: the tensors must share their shape;
      row [i] of the result is the mean over the stacked axis of the
      rows [i]. *)
Definition stack_mean (ts : list tensor2) : exn + tensor2 :=
    match ts with
    | [] => inl RuntimeError
    | t :: _ =>
        if forallb (fun m => size0 m =? size0 t) ts
        then inr (map (fun i => mean_dim0 (map (fun m => nth i m []) ts))
                      (seq 0 (size0 t)))
        else inl RuntimeError
    end.

Definition generate_reference_token_embedding (sequences : list Py.str) : M tensor2 :=
    ' (all_token_embeds, max_len) <-
      for_each (fun '(all_token_embeds, max_len) seq =>
                  token_embed <- get_token_embeddings seq ;;
                  ret (all_token_embeds ++ [token_embed],
                       Nat.max max_len (size0 token_embed)))
               sequences ([], 0) ;;
    let padded_embeds :=
      map (fun emb =>
             let pad_size := max_len - size0 emb in
             if 0 <? pad_size then emb ++ zeros pad_size hidden_size else emb)
          all_token_embeds in
    lift (stack_mean padded_embeds).

  (** [torch.nn.CosineSimilarity(dim=1)(x1, x2)]: row against row, an axis
      of size one being broadcast. *)
Definition cosine_rows (x1 x2 : tensor2) : exn + list float :=
    if size0 x1 =? size0 x2 then inr (map (fun '(a, b) => cosine a b) (combine x1 x2))
    else if size0 x2 =? 1 then inr (map (fun a => cosine a (hd [] x2)) x1)
    else if size0 x1 =? 1 then inr (map (fun b => cosine (hd [] x1) b) x2)
    else inl RuntimeError.

Definition find_problematic_position
             (token_embeddings reference_embeddings : tensor2) : exn + nat :=
    match cosine_rows token_embeddings
                      (firstn (size0 token_embeddings) reference_embeddings) with
    | inr similarities => argmin similarities
    | inl e => inl e
    end.

  (** [seq[idx]] *)
Definition getitem (seq : Py.str) (idx : nat) : exn + ascii :=
    match nth_error seq idx with
    | Some c => inr c
    | None => inl IndexError
    end.

  (** The whole-sequence similarity of an embedding matrix to the profile. *)
Definition pooled_score (token_embeds reference_token_embeddings : tensor2) : float :=
    let sequence_embed := mean_dim0 token_embeds in
    let reference_mean := mean_dim0 reference_token_embeddings in
    cosine sequence_embed reference_mean.

Definition choose_best_alternate_base
             (seq : Py.str) (idx : nat) (reference_token_embeddings : tensor2)
    : M (option ascii * float) :=
    original_base <- lift (getitem seq idx) ;;
    for_each
      (fun '(best_base, best_score) base =>
         let new_seq := Py.replace_at seq idx base in
         token_embeds <- get_token_embeddings new_seq ;;
         let score := pooled_score token_embeds reference_token_embeddings in
         if F64.ltb best_score score then ret (Some base, score)
         else ret (best_base, best_score))
      (filter (fun b => negb (Ascii.eqb b original_base)) BASES)
      (None, F64.minus_one).

Definition get_sequence_score
             (seq : Py.str) (reference_token_embeddings : tensor2) : M float :=
    token_embeds <- get_token_embeddings seq ;;
    ret (pooled_score token_embeds reference_token_embeddings).

Definition predict_edit (seq : Py.str) (reference_token_embeddings : tensor2)
    : M (Py.str * nat * ascii * float) :=
    token_embeds <- get_token_embeddings seq ;;
    problem_idx <- lift (find_problematic_position token_embeds reference_token_embeddings) ;;
    ' (new_base, edited_score) <-
      choose_best_alternate_base seq problem_idx reference_token_embeddings ;;
    match new_base with
    | None => raise TypeError
    | Some base => ret (Py.replace_at seq problem_idx base, problem_idx, base, edited_score)
    end.

  (** The profile computed once when the module is loaded. *)
Variable REFERENCE_EMBEDDINGS : tensor2.

Definition length_error : Py.str := Py.lit "Sequence must be exactly 20 characters long".
Definition alphabet_error : Py.str := Py.lit "Sequence must contain only A, T, C, G".

Definition improves_message (original_efficiency efficiency : Z) : Py.str :=
    Py.lit "🔼 Editing improves similarity from " ++ Py.str_of_int original_efficiency
      ++ Py.lit "% to " ++ Py.str_of_int efficiency ++ Py.lit "%".

Definition optimal_message (original_efficiency : Z) : Py.str :=
    Py.lit "✅ Sequence is already optimal (similarity: "
      ++ Py.str_of_int original_efficiency ++ Py.lit "%)".

  (** The marker string of lines 203-205. *)
Definition change_indicator_at (index : nat) : Py.str :=
    let change_indicator := Py.times "." 20 in
    if index <? length change_indicator
    then Py.slice_to change_indicator index ++ ["*"%char]
           ++ Py.slice_from change_indicator (index + 1)
    else change_indicator.

  (** The [try] block of the handler. *)
Definition predict_sequence_body (data : Py.str) : M response :=
    let sequence := Py.upper data in
    if negb (length sequence =? 20) then ret (Error400 length_error)
    else if negb (forallb (Py.contains BASES) sequence) then ret (Error400 alphabet_error)
    else
      original_score <- get_sequence_score sequence REFERENCE_EMBEDDINGS ;;
      ' (edited_seq, index, base, edited_score) <-
        predict_edit sequence REFERENCE_EMBEDDINGS ;;
      efficiency <- lift (F64.int_of_float (F64.mul edited_score F64.hundred)) ;;
      original_efficiency <- lift (F64.int_of_float (F64.mul original_score F64.hundred)) ;;
      let change_indicator := change_indicator_at index in
      let message :=
        if F64.ltb original_score edited_score
        then improves_message original_efficiency efficiency
        else optimal_message original_efficiency in
      original_base <- lift (getitem sequence index) ;;
      ret (Ok200 {| originalSequence := sequence;
                    editedSequence := edited_seq;
                    changeIndicator := change_indicator;
                    efficiency := efficiency;
                    changedPosition := index + 1;
                    originalBase := original_base;
                    newBase := base;
                    message := message;
                    originalEfficiency := original_efficiency |}).

  (** The handler: whatever the [try] block raises becomes a 500 response. *)
Definition predict_sequence (data : Py.str) (log : calls) : response * calls :=
    match predict_sequence_body data log with
    | (Return r, log') => (r, log')
    | (Raise e, log') => (Error500 e, log')
    end.

End GenePredictor.

Unset Implicit Arguments.

(** * Vocabulary of the statements *)

(** ** The order of floats *)

(** The place of a float in the order [torch.argmin] scans with: the class
    first (NaN, -inf, negative, zero, positive, +inf), then exponent and
    mantissa. *)
Definition rank (x : float) : Z * Z * Z :=
  match x with
  | S754_nan => (-3, 0, 0)
  | S754_infinity true => (-2, 0, 0)
  | S754_finite true m e => (-1, - e, - Zpos m)
  | S754_zero _ => (0, 0, 0)
  | S754_finite false m e => (1, e, Zpos m)
  | S754_infinity false => (2, 0, 0)
  end%Z.

Definition lex_lt (a b : Z * Z * Z) : Prop :=
  let '(a1, a2, a3) := a in
  let '(b1, b2, b3) := b in
  (a1 < b1 \/ (a1 = b1 /\ (a2 < b2 \/ (a2 = b2 /\ a3 < b3))))%Z.

(** What [k] right shifts keep of [M]: the mantissa is a lower bound of
    [M / 2^k], and a strict one as soon as a bit was lost. *)
Definition shifted (M k : Z) (mrs : shr_record) : Prop :=
  (0 <= shr_m mrs /\
   shr_m mrs * 2 ^ k <= M /\
   (orb (shr_r mrs) (shr_s mrs) = true -> shr_m mrs * 2 ^ k < M))%Z.

(** A float of the closed interval from 0 to 1. *)
Definition in_unit_interval (x : float) : Prop :=
  F64.valid x = true /\ F64.leb F64.zero x = true /\ F64.leb x F64.one = true.

(** A float of the range of a cosine, from -1 to 1. *)
Definition in_cosine_range (x : float) : Prop :=
  F64.valid x = true /\ F64.leb F64.minus_one x = true /\ F64.leb x F64.one = true.

(** ** Embeddings and scores *)

(** The matrix [get_token_embeddings] returns for a sequence. *)
Definition token_embeddings_of (model : Py.str -> model_output) (sequence : Py.str) : tensor2 :=
  match model sequence with
  | AsTuple first => first
  | WithLastHiddenState last_hidden_state => last_hidden_state
  | AsTensor hidden => hidden
  end.

(** The whole-sequence similarity of a sequence to a profile: what
    [get_sequence_score] returns, and what the search computes for a
    mutated sequence. *)
Definition score_of (model : Py.str -> model_output) (mean_dim0 : tensor2 -> tensor1)
           (cosine : tensor1 -> tensor1 -> float)
           (reference : tensor2) (sequence : Py.str) : float :=
  pooled_score mean_dim0 cosine (token_embeddings_of model sequence) reference.

(** A matrix padded at its tail with zero vectors up to [len] rows. *)
Definition zero_padded (hidden_size len : nat) (emb : tensor2) : tensor2 :=
  emb ++ zeros (len - size0 emb) hidden_size.

(** [profile] is the position-wise mean of the matrices [embeds], each
    padded to the largest of their lengths. *)
Definition padded_mean_profile (mean_dim0 : tensor2 -> tensor1) (hidden_size : nat)
           (embeds : list tensor2) (profile : tensor2) : Prop :=
  size0 profile = list_max (map size0 embeds) /\
  (forall i, i < size0 profile ->
     nth i profile [] =
     mean_dim0 (map (fun emb => nth i (zero_padded hidden_size (size0 profile) emb) []) embeds)) /\
  (forall emb i, In emb embeds -> i < size0 profile ->
     size0 (zero_padded hidden_size (size0 profile) emb) = size0 profile /\
     nth i (zero_padded hidden_size (size0 profile) emb) [] =
     if i <? size0 emb then nth i emb [] else repeat F64.zero hidden_size).

(** ** Position diagnosis *)

(** The similarity of the candidate to the profile at position [j]. *)
Definition similarity_at (cosine : tensor1 -> tensor1 -> float)
           (candidate profile : tensor2) (j : nat) : float :=
  cosine (nth j candidate []) (nth j profile []).

(** Among the [n] values [sims 0], ..., [sims (n - 1)], none is before
    [sims i] in the order [lt], and every value at an index below [i] is
    after it. *)
Definition first_minimum (lt : float -> float -> bool) (sims : nat -> float) (n i : nat)
  : Prop :=
  i < n /\
  (forall j, j < n -> lt (sims j) (sims i) = false) /\
  (forall j, j < i -> lt (sims i) (sims j) = true).

(** ** The substitution search *)

(** The bases the search tries at a position holding [original_base]. *)
Definition alternates (original_base : ascii) : list ascii :=
  filter (fun b => negb (Ascii.eqb b original_base)) BASES.

(** One turn of the search loop on the pair (best base, best score). *)
Definition pick (score : ascii -> float) (acc : option ascii * float) (base : ascii)
  : option ascii * float :=
  if F64.ltb (snd acc) (score base) then (Some base, score base) else acc.

(** [x] is a NaN or does not exceed [best]. *)
Definition not_above (x best : float) : Prop :=
  F64.is_nan x = true \/ ~ lex_lt (rank best) (rank x).

(** [x] is a NaN or is strictly less than [best]. *)
Definition below (x best : float) : Prop :=
  F64.is_nan x = true \/ F64.ltb x best = true.

(** The state of the search loop after the bases [seen]. *)
Definition search_inv (score : ascii -> float) (seen : list ascii)
           (acc : option ascii * float) : Prop :=
  F64.is_nan (snd acc) = false /\
  ~ lex_lt (rank (snd acc)) (rank F64.minus_one) /\
  (forall c, In c seen -> not_above (score c) (snd acc)) /\
  match fst acc with
  | None => snd acc = F64.minus_one
  | Some b =>
      exists before after,
        seen = before ++ b :: after /\ snd acc = score b /\
        F64.ltb F64.minus_one (score b) = true /\
        (forall c, In c before -> below (score c) (score b))
  end.

(** [base] is the proposal for a position holding [c], the alternates
    scoring [score]: a base of the alphabet other than [c] that scores
    above -1, that no alternate beats, and before which every alternate
    scores strictly less (or NaN). *)
Definition best_alternate (score : ascii -> float) (c base : ascii) : Prop :=
  In base BASES /\ base <> c /\
  F64.ltb F64.minus_one (score base) = true /\
  (forall b, In b (alternates c) -> F64.ltb (score base) (score b) = false) /\
  exists before after,
    alternates c = before ++ base :: after /\
    (forall b, In b before -> below (score b) (score base)).

(** ** Letter case *)

Definition is_ascii_upper (c : ascii) : bool :=
  let n := N_of_ascii c in ((65 <=? n) && (n <=? 90))%N.

(** [a] and [b] are the same character, or the two cases of one letter. *)
Definition case_variant (a b : ascii) : Prop :=
  a = b \/
  (is_ascii_upper b = true /\ N_of_ascii a = (N_of_ascii b + 32)%N) \/
  (is_ascii_upper a = true /\ N_of_ascii b = (N_of_ascii a + 32)%N).

Definition differ_only_by_case (s1 s2 : Py.str) : Prop := Forall2 case_variant s1 s2.

(** ** Requests and responses *)

(** A request the validation turns down. *)
Definition invalid_request (data : Py.str) : Prop :=
  length (Py.upper data) <> 20 \/
  exists c, In c (Py.upper data) /\ ~ In c BASES.

(** The 0-based edited position of a response. *)
Definition edit_index (r : PredictionResult) : nat := changedPosition r - 1.

(** The marker string holds one star, at the edited position, among 20
    characters. *)
Definition single_star (r : PredictionResult) : Prop :=
  edit_index r < 20 /\
  length (changeIndicator r) = 20 /\
  changeIndicator r =
    repeat "."%char (edit_index r) ++ ["*"%char] ++ repeat "."%char (19 - edit_index r) /\
  (forall j, j < 20 ->
     nth j (changeIndicator r) " "%char = if j =? edit_index r then "*"%char else "."%char).


(** The two percentages are [int(score * 100)] of the two scores. *)
Definition truncated_percentages (original edited : float) (r : PredictionResult) : Prop :=
  F64.int_of_float (F64.mul edited F64.hundred) = inr (efficiency r) /\
  F64.int_of_float (F64.mul original F64.hundred) = inr (originalEfficiency r).



Set Implicit Arguments.

(** Everything a 200 response tells about the run that produced it. *)
Record success (model : Py.str -> model_output) (mean_dim0 : tensor2 -> tensor1)
       (cosine : tensor1 -> tensor1 -> float) (REFERENCE_EMBEDDINGS : tensor2)
       (data : Py.str) (log : calls) (r : PredictionResult) (log' : calls) (index : nat)
  : Prop := {
  ok_length : length (Py.upper data) = 20;
  ok_alphabet : forallb (Py.contains BASES) (Py.upper data) = true;
  ok_index :
    find_problematic_position cosine (token_embeddings_of model (Py.upper data))
                              REFERENCE_EMBEDDINGS = inr index;
  ok_original_base : nth_error (Py.upper data) index = Some (originalBase r);
  ok_search :
    fold_left (pick (fun b => score_of model mean_dim0 cosine REFERENCE_EMBEDDINGS
                                       (Py.replace_at (Py.upper data) index b)))
              (alternates (originalBase r)) (None, F64.minus_one)
    = (Some (newBase r),
       score_of model mean_dim0 cosine REFERENCE_EMBEDDINGS (editedSequence r));
  ok_new_base : In (newBase r) (alternates (originalBase r));
  ok_above :
    F64.ltb F64.minus_one
            (score_of model mean_dim0 cosine REFERENCE_EMBEDDINGS (editedSequence r)) = true;
  ok_original : originalSequence r = Py.upper data;
  ok_edited : editedSequence r = Py.replace_at (Py.upper data) index (newBase r);
  ok_indicator : changeIndicator r = change_indicator_at index;
  ok_position : changedPosition r = index + 1;
  ok_efficiency :
    F64.int_of_float
      (F64.mul (score_of model mean_dim0 cosine REFERENCE_EMBEDDINGS (editedSequence r))
               F64.hundred) = inr (efficiency r);
  ok_original_efficiency :
    F64.int_of_float
      (F64.mul (score_of model mean_dim0 cosine REFERENCE_EMBEDDINGS (Py.upper data))
               F64.hundred) = inr (originalEfficiency r);
  ok_message :
    message r =
    if F64.ltb (score_of model mean_dim0 cosine REFERENCE_EMBEDDINGS (Py.upper data))
               (score_of model mean_dim0 cosine REFERENCE_EMBEDDINGS (editedSequence r))
    then improves_message (originalEfficiency r) (efficiency r)
    else optimal_message (originalEfficiency r);
  ok_log :
    log' = log ++ [Py.upper data; Py.upper data]
               ++ map (Py.replace_at (Py.upper data) index) (alternates (originalBase r))
}.

Unset Implicit Arguments.

(** ** A small encoder to run the model on

    One token per symbol and two-dimensional vectors: [A] is embedded as
    [(1, 0)], every other symbol as [(-1, 1)].  The two reductions are
    written out in binary64 arithmetic: the mean of the rows, and the
    cosine as the dot product over the product of the norms (kept away
    from zero by [eps]). *)

Module Demo.

Definition embed_char (c : ascii) : tensor1 :=
  if Ascii.eqb c "A" then [F64.one; F64.zero] else [F64.minus_one; F64.one].

Definition model (s : Py.str) : model_output :=
  WithLastHiddenState (map embed_char s).

Definition hidden_size : nat := 2.

Definition sum (l : list float) : float := fold_left F64.add l F64.zero.

Definition mean_dim0 (t : tensor2) : tensor1 :=
  map (fun j => F64.div (sum (map (fun row => nth j row F64.zero) t))
                        (F64.of_Z (Z.of_nat (length t))))
      (seq 0 hidden_size).

Definition dot (x y : tensor1) : float :=
  sum (map (fun '(a, b) => F64.mul a b) (combine x y)).

Definition eps : float := Eval vm_compute in F64.div F64.one (F64.of_Z 100000000).

Definition fmax (a b : float) : float := if F64.ltb a b then b else a.

Definition cosine (x y : tensor1) : float :=
  F64.div (dot x y) (fmax (F64.mul (F64.sqrt (dot x x)) (F64.sqrt (dot y y))) eps).

(** The profile the module computes when it is loaded.  The three
    references hold 16 [A] among their 60 symbols, so the profile pools to
    [(16 - 44, 44) / 60 = (-28, 44) / 60]. *)
Definition REFERENCE_EMBEDDINGS : tensor2 :=
  Eval vm_compute in
    match fst (generate_reference_token_embedding model mean_dim0 hidden_size
                                                  REFERENCE_SEQUENCES []) with
    | Return profile => profile
    | Raise _ => []
    end.

Definition predict : Py.str -> calls -> response * calls :=
  predict_sequence model mean_dim0 cosine REFERENCE_EMBEDDINGS.

Definition score : Py.str -> float :=
  score_of model mean_dim0 cosine REFERENCE_EMBEDDINGS.

Definition blank : PredictionResult :=
  {| originalSequence := []; editedSequence := []; changeIndicator := [];
     efficiency := 0; changedPosition := 0; originalBase := "A"; newBase := "A";
     message := []; originalEfficiency := 0 |}.

Definition body_of (run : response * calls) : PredictionResult :=
  match fst run with Ok200 r => r | _ => blank end.

(** A request close to the first reference, in lower case, and what it is
    upper-cased to. *)
Definition request : Py.str := Py.lit "ctacttcaaatggggctacg".
Definition sequence : Py.str := Py.lit "CTACTTCAAATGGGGCTACG".

Definition run : response * calls := Eval vm_compute in predict request [].
Definition body : PredictionResult := Eval vm_compute in body_of run.

(** A request made of [A] only.  It pools to [(1, 0)], and to
    [(0.9, 0.05)] once a symbol is replaced: both at an obtuse angle to
    the profile. *)
Definition poly_a : Py.str := Py.lit "AAAAAAAAAAAAAAAAAAAA".

Definition run_poly_a : response * calls := Eval vm_compute in predict poly_a [].
Definition body_poly_a : PredictionResult := Eval vm_compute in body_of run_poly_a.

(** A sequence that holds ten [A] once its first symbol is replaced: it
    then pools to [(10 - 10, 10) / 20 = (0, 0.5)], exactly opposite to the
    one-row profile [(0, -1)]. *)
Definition half_a : Py.str := Py.lit "AAAAAAAAAAATTTTTTTTT".
Definition opposite_profile : tensor2 := [[F64.zero; F64.minus_one]].

(** A profile of NaN. *)
Definition nan_profile : tensor2 := repeat [F64.nan; F64.nan] 20.

(** Three rows of similarities [1, 0, 0] against a four-row profile. *)
Definition candidate : tensor2 :=
  [[F64.one; F64.zero]; [F64.zero; F64.one]; [F64.zero; F64.one]].
Definition profile4 : tensor2 :=
  [[F64.one; F64.zero]; [F64.one; F64.zero]; [F64.one; F64.zero]; [F64.one; F64.one]].

(** An encoder that frames the symbols with two more tokens, the last of
    them opposite to every row of the 22-row profile below. *)
Definition long_model (s : Py.str) : model_output :=
  AsTensor (map embed_char s ++ [[F64.zero; F64.one]; [F64.minus_one; F64.zero]]).
Definition long_profile : tensor2 := repeat [F64.one; F64.zero] 22.

End Demo.

(** * Lemmas *)

(** ** The order of floats *)
Lemma ltb_rank (a b : float) :
  F64.ltb a b = true <->
  (F64.is_nan a = false /\ F64.is_nan b = false /\ lex_lt (rank a) (rank b)).
Proof.
  unfold F64.ltb, SFltb.
  destruct a as [sa|[|]| |[|] ma ea], b as [sb|[|]| |[|] mb eb]; simpl;
    try (split; [discriminate | intros (? & ? & ?); try discriminate; lia]);
    try (split; [intros _; repeat split; lia | reflexivity]).
  - rewrite Pos.compare_cont_spec; simpl. 
    destruct (Z.compare_spec ea eb); [destruct (Pos.compare_spec ma mb)| |]; simpl;
      (split; [try discriminate; intros _; repeat split; lia | intros (_ & _ & ?); try reflexivity; lia]).
  - rewrite Pos.compare_cont_spec; simpl. 
    destruct (Z.compare_spec ea eb); [destruct (Pos.compare_spec ma mb)| |]; simpl;
      (split; [try discriminate; intros _; repeat split; lia | intros (_ & _ & ?); try reflexivity; lia]).
Qed.

Lemma less_or_nan_rank (a b : float) :
  less_or_nan a b = true <-> lex_lt (rank a) (rank b).
Proof.
  unfold less_or_nan.
  destruct (F64.is_nan a) eqn:Ha.
  - destruct a; try discriminate. destruct b as [sb|[|]| |[|] mb eb]; simpl; split; intro; try lia; try discriminate; reflexivity.
  - rewrite ltb_rank. split.
    + intros (_ & _ & H); exact H.
    + intro H. repeat split; trivial.
      destruct b; try reflexivity. exfalso.
      destruct a as [sa|[|]| |[|] ma ea]; simpl in *; try lia; discriminate.
Qed.

Ltac order_by_rank :=
  repeat match goal with
         | H : less_or_nan _ _ = true |- _ => apply less_or_nan_rank in H
         | H : less_or_nan _ _ = false |- _ =>
             apply not_true_iff_false in H; rewrite less_or_nan_rank in H
         | |- less_or_nan _ _ = true => apply less_or_nan_rank
         | |- less_or_nan _ _ = false =>
             apply not_true_iff_false; rewrite less_or_nan_rank
         end.

Lemma lex_lt_trans a b c : lex_lt a b -> lex_lt b c -> lex_lt a c.
Proof. destruct a as [[? ?] ?], b as [[? ?] ?], c as [[? ?] ?]; unfold lex_lt; lia. Qed.

Lemma lex_lt_irrefl a : ~ lex_lt a a.
Proof. destruct a as [[? ?] ?]; unfold lex_lt; lia. Qed.

Lemma lex_lt_le_trans a b c : lex_lt a b -> ~ lex_lt c b -> lex_lt a c.
Proof. destruct a as [[? ?] ?], b as [[? ?] ?], c as [[? ?] ?]; unfold lex_lt; lia. Qed.

Section Argmin.

Local Abbreviation d := F64.zero.

Lemma argmin_from_first_minimum (l pre : list float) (best_i : nat) :
    best_i < length pre ->
    (forall j, j < length pre -> ~ lex_lt (rank (nth j pre d)) (rank (nth best_i pre d))) ->
    (forall j, j < best_i -> lex_lt (rank (nth best_i pre d)) (rank (nth j pre d))) ->
    let r := argmin_from best_i (nth best_i pre d) (length pre) l in
    r < length (pre ++ l) /\
    (forall j, j < length (pre ++ l) ->
               ~ lex_lt (rank (nth j (pre ++ l) d)) (rank (nth r (pre ++ l) d))) /\
    (forall j, j < r -> lex_lt (rank (nth r (pre ++ l) d)) (rank (nth j (pre ++ l) d))).
Proof.
    revert pre best_i.
    induction l as [|x l IH]; intros pre best_i Hlt Hmin Hfirst; cbn [argmin_from].
    - rewrite app_nil_r. auto.
    - assert (Hpre : pre ++ x :: l = (pre ++ [x]) ++ l) by (rewrite <- app_assoc; reflexivity).
      assert (Hlen : length (pre ++ [x]) = S (length pre)) by (rewrite length_app; simpl; lia).
      assert (Hx : nth (length pre) (pre ++ [x]) d = x)
        by (rewrite app_nth2, Nat.sub_diag by lia; reflexivity).
      rewrite Hpre.
      destruct (less_or_nan x (nth best_i pre d)) eqn:Hcmp; order_by_rank.
      + specialize (IH (pre ++ [x]) (length pre)).
        rewrite Hx, Hlen in IH. apply IH.
        * lia.
        * intros j Hj.
          destruct (Nat.eq_dec j (length pre)) as [->|Hne].
          -- rewrite Hx. apply lex_lt_irrefl.
          -- rewrite app_nth1 by lia. intro Hc.
             apply (Hmin j); [lia|]. eapply lex_lt_trans; eauto.
        * intros j Hj. rewrite app_nth1 by lia.
          eapply lex_lt_le_trans; eauto.
      + specialize (IH (pre ++ [x]) best_i).
        rewrite (app_nth1 pre [x] d Hlt), Hlen in IH. apply IH.
        * lia.
        * intros j Hj.
          destruct (Nat.eq_dec j (length pre)) as [->|Hne].
          -- rewrite Hx. exact Hcmp.
          -- rewrite app_nth1 by lia. apply Hmin; lia.
        * intros j Hj. rewrite !app_nth1 by lia. apply Hfirst; lia.
Qed.

Lemma argmin_first_minimum (t : list float) :
    t <> [] ->
    exists i, argmin t = inr i /\ i < length t /\
              (forall j, j < length t -> less_or_nan (nth j t d) (nth i t d) = false) /\
              (forall j, j < i -> less_or_nan (nth i t d) (nth j t d) = true).
Proof.
    destruct t as [|x l]; [congruence|intros _].
    exists (argmin_from 0 x 1 l). split; [reflexivity|].
    destruct (@argmin_from_first_minimum l [x] 0) as (H1 & H2 & H3); simpl; try lia.
    - intros j Hj. assert (j = 0) as -> by lia. apply lex_lt_irrefl.
    - simpl in *. split; [exact H1|]. split.
      + intros j Hj. order_by_rank. apply H2. exact Hj.
      + intros j Hj. order_by_rank. apply H3. exact Hj.
Qed.

End Argmin.

Lemma nth_map_combine {A B C} (f : A -> B -> C) (l1 : list A) (l2 : list B) j da db dc :
  j < length l1 -> j < length l2 ->
  nth j (map (fun '(a, b) => f a b) (combine l1 l2)) dc = f (nth j l1 da) (nth j l2 db).
Proof.
  revert l2 j; induction l1 as [|a l1 IH]; intros [|b l2] [|j]; simpl; intros; try lia; auto.
  apply IH; lia.
Qed.


Section Rounding.

Local Open Scope Z_scope.

(** *** Rounding never crosses a representable bound *)

Lemma digits2_pos_bounds (p : positive) :
  2 ^ (Zpos (digits2_pos p) - 1) <= Zpos p < 2 ^ Zpos (digits2_pos p).
Proof.
  induction p as [p IH|p IH|]; cbn [digits2_pos].
  - rewrite Pos2Z.inj_succ.
    replace (Z.succ (Zpos (digits2_pos p)) - 1) with (Z.succ (Zpos (digits2_pos p) - 1)) by lia.
    rewrite !Z.pow_succ_r by lia. lia.
  - rewrite Pos2Z.inj_succ.
    replace (Z.succ (Zpos (digits2_pos p)) - 1) with (Z.succ (Zpos (digits2_pos p) - 1)) by lia.
    rewrite !Z.pow_succ_r by lia. lia.
  - simpl. lia.
Qed.

Lemma shr_1_shifted M k mrs :
  0 <= k -> shifted M k mrs -> shifted M (k + 1) (shr_1 mrs).
Proof.
  intros Hk (H0 & Hle & Hlt). unfold shifted.
  rewrite Z.pow_add_r, Z.pow_1_r by lia.
  assert (HP : 0 < 2 ^ k) by (apply Z.pow_pos_nonneg; lia).
  set (X := 2 ^ k) in *. clearbody X.
  destruct mrs as [m r s]; cbn [shr_m shr_r shr_s] in *.
  destruct m as [|[p|p|]|p]; cbn [shr_1 shr_m shr_r shr_s orb]; try lia;
    (split; [lia|]); (split; [lia|]); intro E;
    try (apply Hlt in E); lia.
Qed.

Lemma iter_pos_shifted M (p : positive) : forall k mrs,
  0 <= k -> shifted M k mrs -> shifted M (k + Zpos p) (iter_pos shr_1 p mrs).
Proof.
  induction p as [p IH|p IH|]; intros k mrs Hk H; cbn [iter_pos].
  - replace (k + Zpos p~1) with (((k + 1) + Zpos p) + Zpos p) by lia.
    apply IH; [lia|]. apply IH; [lia|]. apply shr_1_shifted; assumption.
  - replace (k + Zpos p~0) with ((k + Zpos p) + Zpos p) by lia.
    apply IH; [lia|]. apply IH; assumption.
  - apply shr_1_shifted; assumption.
Qed.

Lemma shr_shifted M e n :
  0 <= M ->
  let '(mrs, e') := shr (shr_record_of_loc M loc_Exact) e n in
  e' = e + Z.max 0 n /\ shifted M (Z.max 0 n) mrs.
Proof.
  intro HM.
  assert (H0 : shifted M 0 (shr_record_of_loc M loc_Exact)).
  { unfold shifted; simpl. repeat split; try lia; discriminate. }
  destruct n as [|p|p]; simpl.
  - split; [lia|exact H0].
  - split; [lia|]. apply (@iter_pos_shifted M p 0); [lia|exact H0].
  - split; [lia|exact H0].
Qed.

Lemma round_nearest_even_shifted M k mrs :
  0 <= k -> shifted M k mrs ->
  let m' := round_nearest_even (shr_m mrs) (loc_of_shr_record mrs) in
  0 <= m' /\ (forall B, M <= B * 2 ^ k -> m' <= B).
Proof.
  intros Hk (H0 & Hle & Hlt).
  assert (HP : 0 < 2 ^ k) by (apply Z.pow_pos_nonneg; lia).
  destruct mrs as [m [|] [|]]; simpl in *.
  - split; [lia|]. intros B HB. specialize (Hlt eq_refl). nia.
  - destruct (Z.even m); (split; [lia|]); intros B HB; specialize (Hlt eq_refl); nia.
  - split; [lia|]. intros B HB. nia.
  - split; [lia|]. intros B HB. nia.
Qed.

(** The exponent chosen for a mantissa below [N * 2^(g - e)] stays at or
    below [g]. *)
Lemma fexp_le prec emax (m e N g : Z) :
  0 < prec -> 3 - emax - prec <= g -> e <= g ->
  0 <= m -> 0 < N < 2 ^ prec -> m <= N * 2 ^ (g - e) ->
  e + Z.max 0 (fexp prec emax (Zdigits2 m + e) - e) <= g.
Proof.
  intros Hprec Hemin Heg Hm HN Hle.
  unfold fexp, emin.
  destruct m as [|p|p]; cbn [Zdigits2]; [lia| |lia].
  pose proof (digits2_pos_bounds p) as [Hd _].
  set (d := Zpos (digits2_pos p)) in *.
  assert (Hd0 : 0 < d) by (unfold d; lia).
  assert (HP : 0 < 2 ^ (g - e)) by (apply Z.pow_pos_nonneg; lia).
  assert (Hlt : 2 ^ (d - 1) < 2 ^ (prec + (g - e))).
  { rewrite Z.pow_add_r by lia. nia. }
  apply Z.pow_lt_mono_r_iff in Hlt; lia.
Qed.

Lemma binary_round_aux_le prec emax (mx : positive) (ex N g : Z) :
  0 < prec -> 3 - emax - prec <= g -> g <= emax - prec ->
  ex <= g -> 0 < N < 2 ^ prec -> Zpos mx <= N * 2 ^ (g - ex) ->
  match binary_round_aux prec emax false (Zpos mx) ex loc_Exact with
  | S754_zero _ => True
  | S754_finite false m e => e <= g /\ Zpos m <= N * 2 ^ (g - e)
  | _ => False
  end.
Proof.
  intros Hprec Hemin Hemax Hex HN Hle.
  unfold binary_round_aux, shr_fexp.
  pose proof (@shr_shifted (Zpos mx) ex (fexp prec emax (Zdigits2 (Zpos mx) + ex) - ex)) as H1.
  destruct (shr (shr_record_of_loc (Zpos mx) loc_Exact) ex
                (fexp prec emax (Zdigits2 (Zpos mx) + ex) - ex)) as [mrs1 e1].
  destruct H1 as [He1 Hs1]; [lia|].
  set (k1 := Z.max 0 (fexp prec emax (Zdigits2 (Zpos mx) + ex) - ex)) in *.
  assert (Hk1 : 0 <= k1) by (unfold k1; lia).
  assert (He1g : e1 <= g).
  { rewrite He1. unfold k1. apply fexp_le with (N := N); try lia. }
  destruct (@round_nearest_even_shifted (Zpos mx) k1 mrs1 Hk1 Hs1) as [Hm0 Hmle].
  set (m1 := round_nearest_even (shr_m mrs1) (loc_of_shr_record mrs1)) in *.
  assert (Hm1 : m1 <= N * 2 ^ (g - e1)).
  { apply Hmle. rewrite <- Z.mul_assoc, <- Z.pow_add_r by lia.
    replace (g - e1 + k1) with (g - ex) by lia. exact Hle. }
  pose proof (@shr_shifted m1 e1 (fexp prec emax (Zdigits2 m1 + e1) - e1) Hm0) as H2.
  destruct (shr (shr_record_of_loc m1 loc_Exact) e1
                (fexp prec emax (Zdigits2 m1 + e1) - e1)) as [mrs2 e2].
  destruct H2 as [He2 (H20 & H2le & _)].
  set (k2 := Z.max 0 (fexp prec emax (Zdigits2 m1 + e1) - e1)) in *.
  assert (Hk2 : 0 <= k2) by (unfold k2; lia).
  assert (He2g : e2 <= g).
  { rewrite He2. unfold k2. apply fexp_le with (N := N); try lia. }
  destruct (shr_m mrs2) as [|m2|m2] eqn:Em2; [exact I| |lia].
  assert (E : (e2 <=? emax - prec) = true) by (apply Z.leb_le; lia).
  rewrite E. split; [exact He2g|].
  assert (HP : 0 < 2 ^ k2) by (apply Z.pow_pos_nonneg; lia).
  assert (Hsplit : N * 2 ^ (g - e1) = N * 2 ^ (g - e2) * 2 ^ k2).
  { rewrite <- Z.mul_assoc, <- Z.pow_add_r by lia. f_equal. f_equal. lia. }
  nia.
Qed.

Lemma unit_interval_mantissa (s : bool) (m : positive) (e : Z) :
  F64.valid (S754_finite s m e) = true ->
  F64.leb F64.zero (S754_finite s m e) = true ->
  F64.leb (S754_finite s m e) F64.one = true ->
  s = false /\ e <= -52 /\ Zpos m <= 2 ^ (- e).
Proof.
  unfold F64.valid, F64.leb, SFleb, valid_binary, bounded, canonical_mantissa, fexp, emin,
    F64.zero, F64.one, F64.prec, F64.emax.
  intros Hv H0 H1.
  destruct s; [discriminate|]. split; [reflexivity|].
  apply andb_prop in Hv. destruct Hv as [Hc _]. apply Z.eqb_eq in Hc.
  pose proof (digits2_pos_bounds m) as [_ Hd].
  cbn [SFcompare] in H1. rewrite Pos.compare_cont_spec in H1; cbn [Pos.switch_Eq] in H1.
  assert (H53 : Zpos m < 2 ^ 53).
  { eapply Z.lt_le_trans; [exact Hd|]. apply Z.pow_le_mono_r; lia. }
  destruct (Z.compare_spec e (-52)) as [He|He|He].
  - subst e. split; [lia|]. change (2 ^ (- -52)) with 4503599627370496.
    destruct (Pos.compare_spec m 4503599627370496) as [E|E|E].
    + rewrite E. apply Z.le_refl.
    + apply Z.lt_le_incl. exact E.
    + cbn in H1. discriminate H1.
  - split; [lia|]. eapply Z.le_trans; [apply Z.lt_le_incl; exact H53|].
    apply Z.pow_le_mono_r; lia.
  - discriminate.
Qed.

Lemma trunc_finite_le (m : positive) (e N g : Z) :
  0 <= N -> 0 <= g -> e <= g -> Zpos m <= N * 2 ^ (g - e) ->
  0 <= F64.trunc_finite false m e <= N * 2 ^ g.
Proof.
  intros HN Hg He Hle. unfold F64.trunc_finite.
  destruct (Z.leb_spec 0 e).
  - rewrite Z.shiftl_mul_pow2 by lia.
    assert (HP : 0 < 2 ^ e) by (apply Z.pow_pos_nonneg; lia).
    replace (2 ^ g) with (2 ^ (g - e) * 2 ^ e)
      by (rewrite <- Z.pow_add_r by lia; f_equal; lia).
    nia.
  - rewrite Z.shiftr_div_pow2 by lia.
    assert (HP : 0 < 2 ^ (- e)) by (apply Z.pow_pos_nonneg; lia).
    split; [apply Z.div_pos; lia|].
    replace (2 ^ (g - e)) with (2 ^ g * 2 ^ (- e)) in Hle
      by (rewrite <- Z.pow_add_r by lia; f_equal; lia).
    apply Z.div_le_upper_bound; [lia|]. nia.
Qed.

(** A similarity in [[0, 1]] gives a percentage in [[0, 100]]. *)
Lemma percent_of_unit_interval (x : float) :
  F64.valid x = true ->
  F64.leb F64.zero x = true ->
  F64.leb x F64.one = true ->
  exists k, F64.int_of_float (F64.mul x F64.hundred) = inr k /\ 0 <= k <= 100.
Proof.
  intros Hv H0 H1.
  destruct x as [s|s| |s m e]; try discriminate.
  - exists 0. split; [reflexivity|lia].
  - destruct s; discriminate.
  - destruct (unit_interval_mantissa _ _ _ Hv H0 H1) as (-> & He & Hm).
    unfold F64.mul, F64.hundred. cbn [SFmul xorb].
    pose proof (@binary_round_aux_le F64.prec F64.emax
                  (m * 7036874417766400) (e + -46) 25 2) as H.
    unfold F64.prec, F64.emax in *.
    destruct (binary_round_aux 53 1024 false (Z.pos (m * 7036874417766400)) (e + -46) loc_Exact)
      as [s'|s'| |s' m' e'].
    + exists 0. split; [reflexivity|lia].
    + exfalso. apply H; try lia.
      replace (2 - (e + -46)) with (48 + - e) by lia.
      rewrite Z.pow_add_r, Pos2Z.inj_mul by lia.
      assert (0 < 2 ^ (- e)) by (apply Z.pow_pos_nonneg; lia).
      change (2 ^ 48) with 281474976710656. lia.
    + exfalso. apply H; try lia.
      replace (2 - (e + -46)) with (48 + - e) by lia.
      rewrite Z.pow_add_r, Pos2Z.inj_mul by lia.
      assert (0 < 2 ^ (- e)) by (apply Z.pow_pos_nonneg; lia).
      change (2 ^ 48) with 281474976710656. lia.
    + assert (Hr : match s' with false => e' <= 2 /\ Zpos m' <= 25 * 2 ^ (2 - e') | true => False end).
      { apply H; try lia.
        replace (2 - (e + -46)) with (48 + - e) by lia.
        rewrite Z.pow_add_r, Pos2Z.inj_mul by lia.
        assert (0 < 2 ^ (- e)) by (apply Z.pow_pos_nonneg; lia).
        change (2 ^ 48) with 281474976710656. lia. }
      destruct s'; [contradiction|]. destruct Hr as [He' Hm'].
      exists (F64.trunc_finite false m' e'). split; [reflexivity|].
      change 100 with (25 * 2 ^ 2). apply trunc_finite_le; lia.
Qed.

End Rounding.

(** ** Running the functions *)

Section Search.
Variable model : Py.str -> model_output.
Variable mean_dim0 : tensor2 -> tensor1.
Variable cosine : tensor1 -> tensor1 -> float.

Local Abbreviation score_of := (score_of model mean_dim0 cosine).

Lemma get_token_embeddings_run sequence log :
    get_token_embeddings model sequence log =
    (Return (token_embeddings_of model sequence), log ++ [sequence]).
Proof. reflexivity. Qed.

Lemma get_sequence_score_run seq reference log :
    get_sequence_score model mean_dim0 cosine seq reference log =
    (Return (score_of reference seq), log ++ [seq]).
Proof. reflexivity. Qed.

Lemma search_loop_run seq idx reference cands : forall acc log,
    for_each
      (fun '(best_base, best_score) base =>
         let new_seq := Py.replace_at seq idx base in
         token_embeds <- get_token_embeddings model new_seq ;;
         let score := pooled_score mean_dim0 cosine token_embeds reference in
         if F64.ltb best_score score then ret (Some base, score)
         else ret (best_base, best_score))
      cands acc log =
    (Return (fold_left (pick (fun b => score_of reference (Py.replace_at seq idx b))) cands acc),
     log ++ map (Py.replace_at seq idx) cands).
Proof.
    induction cands as [|b cands IH]; intros [bb bs] log; cbn [for_each fold_left map].
    - unfold ret. rewrite app_nil_r. reflexivity.
    - unfold bind at 1. unfold bind at 1. rewrite get_token_embeddings_run.
      unfold pick at 2. cbn [snd]. fold (score_of reference (Py.replace_at seq idx b)).
      destruct (F64.ltb bs (score_of reference (Py.replace_at seq idx b)));
        unfold ret at 1; rewrite IH, <- app_assoc; reflexivity.
Qed.

Lemma choose_best_alternate_base_run seq idx reference log :
    choose_best_alternate_base model mean_dim0 cosine seq idx reference log =
    match nth_error seq idx with
    | Some original_base =>
        (Return (fold_left (pick (fun b => score_of reference (Py.replace_at seq idx b)))
                           (alternates original_base) (None, F64.minus_one)),
         log ++ map (Py.replace_at seq idx) (alternates original_base))
    | None => (Raise IndexError, log)
    end.
Proof.
    unfold choose_best_alternate_base, getitem, bind at 1.
    destruct (nth_error seq idx) as [c|]; cbn [lift]; [|reflexivity].
    unfold ret at 1. apply search_loop_run.
Qed.

End Search.

(** *** What the search loop keeps *)

Ltac by_rank :=
  repeat match goal with
         | H : context [rank ?x] |- _ =>
             let r := fresh "r" in let E := fresh in
             remember (rank x) as r eqn:E; clear E; destruct r as [[? ?] ?]
         | |- context [rank ?x] =>
             let r := fresh "r" in let E := fresh in
             remember (rank x) as r eqn:E; clear E; destruct r as [[? ?] ?]
         end;
  unfold lex_lt in *; lia.

Section Pick.
Variable score : ascii -> float.

Local Abbreviation search_inv := (search_inv score).

Lemma search_inv_start : search_inv [] (None, F64.minus_one).
Proof.
    unfold search_inv; cbn [fst snd]. repeat split.
    - apply lex_lt_irrefl.
    - intros c [].
Qed.

Lemma ltb_false_not_above x best :
    F64.is_nan best = false -> F64.ltb best x = false -> not_above x best.
Proof.
    intros Hb H. unfold not_above.
    destruct (F64.is_nan x) eqn:Hx; [left; reflexivity|right].
    intro Hlt. rewrite (proj2 (ltb_rank best x)) in H; [discriminate|auto].
Qed.

Lemma search_inv_step seen acc x :
    search_inv seen acc -> search_inv (seen ++ [x]) (pick score acc x).
Proof.
    destruct acc as [bb bs]. unfold search_inv, pick; cbn [fst snd].
    intros (Hnan & Hlow & Hmax & Hbest).
    destruct (F64.ltb bs (score x)) eqn:Hcmp; cbn [fst snd].
    - apply ltb_rank in Hcmp. destruct Hcmp as (_ & Hxn & Hlt).
      split; [exact Hxn|]. split.
      { intro Hc. apply Hlow. eapply lex_lt_trans; eauto. }
      split.
      { intros c Hc. apply in_app_or in Hc. destruct Hc as [Hc|[<-|[]]].
        - destruct (Hmax c Hc) as [Hn|Hle]; [left; exact Hn|right].
          intro Hc'. apply Hle. eapply lex_lt_trans; eauto.
        - right. apply lex_lt_irrefl. }
      exists seen, []. split; [reflexivity|]. split; [reflexivity|]. split.
      { apply ltb_rank. repeat split; trivial. by_rank. }
      intros c Hc. destruct (Hmax c Hc) as [Hn|Hle]; [left; exact Hn|].
      destruct (F64.is_nan (score c)) eqn:Hcn; [left; exact Hcn|right].
      apply ltb_rank. repeat split; trivial. by_rank.
    - split; [exact Hnan|]. split; [exact Hlow|]. split.
      { intros c Hc. apply in_app_or in Hc. destruct Hc as [Hc|[<-|[]]].
        - apply Hmax; exact Hc.
        - apply ltb_false_not_above; assumption. }
      destruct bb as [b|]; [|exact Hbest].
      destruct Hbest as (before & after & -> & Hs & Hpos & Hbefore).
      exists before, (after ++ [x]). rewrite <- app_assoc. auto.
Qed.

Lemma search_inv_fold cands : forall seen acc,
    search_inv seen acc -> search_inv (seen ++ cands) (fold_left (pick score) cands acc).
Proof.
    induction cands as [|x cands IH]; intros seen acc H; cbn [fold_left].
    - rewrite app_nil_r. exact H.
    - replace (seen ++ x :: cands) with ((seen ++ [x]) ++ cands)
        by (rewrite <- app_assoc; reflexivity).
      apply IH. apply search_inv_step. exact H.
Qed.

End Pick.

Lemma alternates_spec c b : In b (alternates c) <-> In b BASES /\ b <> c.
Proof.
  unfold alternates. rewrite filter_In, negb_true_iff. 
  split; intros [H1 H2]; split; trivial.
  - intros ->. rewrite Ascii.eqb_refl in H2. discriminate.
  - apply Ascii.eqb_neq. exact H2.
Qed.

Section Handler.
Variable model : Py.str -> model_output.
Variable mean_dim0 : tensor2 -> tensor1.
Variable cosine : tensor1 -> tensor1 -> float.
Variable REFERENCE_EMBEDDINGS : tensor2.

Local Abbreviation score := (score_of model mean_dim0 cosine REFERENCE_EMBEDDINGS).
Local Abbreviation predict := (predict_sequence model mean_dim0 cosine REFERENCE_EMBEDDINGS).
Local Abbreviation success := (success model mean_dim0 cosine REFERENCE_EMBEDDINGS).

Lemma predict_sequence_ok_inv data log r log' :
    predict data log = (Ok200 r, log') -> exists index, success data log r log' index.
Proof.
    unfold predict_sequence, predict_sequence_body.
    destruct (Nat.eqb_spec (length (Py.upper data)) 20) as [Hlen|Hlen]; cbn [negb];
      [|unfold ret; intro H; inversion H].
    destruct (forallb (Py.contains BASES) (Py.upper data)) eqn:Hall; cbn [negb];
      [|unfold ret; intro H; inversion H].
    set (sequence := Py.upper data) in *.
    unfold bind at 1. rewrite get_sequence_score_run.
    unfold bind at 1. unfold predict_edit.
    unfold bind at 1. rewrite get_token_embeddings_run.
    unfold bind at 1.
    destruct (find_problematic_position cosine (token_embeddings_of model sequence)
                                        REFERENCE_EMBEDDINGS) as [e|index] eqn:Hidx;
      cbn [lift]; [unfold raise; intro H; inversion H|].
    unfold ret at 1. unfold bind at 1. rewrite choose_best_alternate_base_run.
    destruct (nth_error sequence index) as [c|] eqn:Hc; [|intro H; inversion H].
    destruct (fold_left (pick (fun b => score (Py.replace_at sequence index b)))
                        (alternates c) (None, F64.minus_one)) as [[base|] edited_score] eqn:Hfold;
      [|unfold raise; intro H; inversion H].
    unfold ret at 1.
    pose proof (@search_inv_fold (fun b => score (Py.replace_at sequence index b))
                  (alternates c) [] _ (search_inv_start _)) as Hinv.
    rewrite Hfold in Hinv. destruct Hinv as (_ & _ & _ & Hbest). cbn [fst snd] in Hbest.
    destruct Hbest as (before & after & Hcands & Hscore & Habove & _).
    unfold bind at 1.
    destruct (F64.int_of_float (F64.mul edited_score F64.hundred)) as [e|eff] eqn:Heff;
      cbn [lift]; [unfold raise; intro H; inversion H|].
    unfold ret at 1. unfold bind at 1.
    destruct (F64.int_of_float (F64.mul (score sequence) F64.hundred)) as [e|oeff] eqn:Hoeff;
      cbn [lift]; [unfold raise; intro H; inversion H|].
    unfold ret at 1. unfold bind at 1. unfold getitem. rewrite Hc. cbn [lift].
    unfold ret. intro H. inversion H; subst r log'; clear H.
    exists index.
    constructor; cbn [originalSequence editedSequence changeIndicator efficiency changedPosition
                        originalBase newBase message originalEfficiency]; fold sequence;
      try reflexivity; try assumption.
    - rewrite Hfold, Hscore. reflexivity.
    - cbn [app] in Hcands. rewrite Hcands. apply in_or_app. right. left. reflexivity.
    - rewrite <- Hscore. exact Heff.
    - rewrite <- Hscore. reflexivity.
    - rewrite <- !app_assoc. reflexivity.
Qed.

End Handler.

(** ** The reference profile *)

Lemma fold_left_max (l : list nat) : forall a,
  fold_left Nat.max l a = Nat.max a (list_max l).
Proof.
  induction l as [|x l IH]; intro a; cbn [fold_left list_max fold_right].
  - lia.
  - rewrite IH. fold (list_max l). lia.
Qed.

Lemma nth_map_seq {A} (f : nat -> A) (len i : nat) (d : A) :
  i < len -> nth i (map f (seq 0 len)) d = f i.
Proof.
  intro H. rewrite (nth_indep _ d (f 0)) by (rewrite length_map, length_seq; exact H).
  rewrite map_nth, seq_nth by exact H. reflexivity.
Qed.

Lemma zero_padded_size hidden_size len emb :
  size0 emb <= len -> size0 (zero_padded hidden_size len emb) = len.
Proof.
  intro H. unfold zero_padded, size0, zeros in *. rewrite length_app, repeat_length. lia.
Qed.

Lemma zero_padded_nth hidden_size len emb i :
  i < len ->
  nth i (zero_padded hidden_size len emb) [] =
  if i <? size0 emb then nth i emb [] else repeat F64.zero hidden_size.
Proof.
  intro H. unfold zero_padded, zeros, size0.
  destruct (Nat.ltb_spec i (length emb)).
  - apply app_nth1; assumption.
  - rewrite app_nth2 by assumption. apply nth_repeat_lt. lia.
Qed.

Section Profile.
Variable model : Py.str -> model_output.
Variable mean_dim0 : tensor2 -> tensor1.
Variable hidden_size : nat.

Local Abbreviation embed := (token_embeddings_of model).

Lemma embed_loop_run sequences : forall all_token_embeds max_len log,
    for_each (fun '(all_token_embeds, max_len) seq =>
                token_embed <- get_token_embeddings model seq ;;
                ret (all_token_embeds ++ [token_embed],
                     Nat.max max_len (size0 token_embed)))
             sequences (all_token_embeds, max_len) log =
    (Return (all_token_embeds ++ map embed sequences,
             fold_left Nat.max (map size0 (map embed sequences)) max_len),
     log ++ sequences).
Proof.
    induction sequences as [|s sequences IH]; intros acc ml log; cbn [for_each map fold_left].
    - unfold ret. rewrite !app_nil_r. reflexivity.
    - unfold bind at 1. unfold bind at 1. rewrite get_token_embeddings_run.
      unfold ret at 1. rewrite IH, <- !app_assoc. reflexivity.
Qed.

Lemma pad_branch len emb :
    (if 0 <? len - size0 emb then emb ++ zeros (len - size0 emb) hidden_size else emb)
    = zero_padded hidden_size len emb.
Proof.
    unfold zero_padded. destruct (Nat.ltb_spec 0 (len - size0 emb)) as [H|H]; [reflexivity|].
    replace (len - size0 emb) with 0 by lia. cbn. rewrite app_nil_r. reflexivity.
Qed.

End Profile.

(** *** Strings *)

Lemma replace_at_length (s : Py.str) (i : nat) (c : ascii) :
  i < length s -> length (Py.replace_at s i c) = length s.
Proof.
  intro H. unfold Py.replace_at, Py.slice_to, Py.slice_from.
  rewrite !length_app, length_firstn, length_skipn. cbn [length]. lia.
Qed.


Lemma change_indicator_at_shape (index : nat) :
  index < 20 ->
  change_indicator_at index = repeat "."%char index ++ ["*"%char] ++ repeat "."%char (19 - index).
Proof.
  intro H. do 20 (destruct index as [|index]; [reflexivity|]). lia.
Qed.

(** *** Letter case *)

Lemma upper_char_of_upper (c : ascii) : is_ascii_upper c = true -> Py.upper_char c = c.
Proof.
  unfold is_ascii_upper, Py.upper_char, Py.is_ascii_lower. intro H.
  apply andb_prop in H. destruct H as [H1 H2].
  apply N.leb_le in H1, H2.
  destruct (N.leb_spec 97 (N_of_ascii c)); [lia|]. reflexivity.
Qed.

Lemma upper_char_of_lower (a b : ascii) :
  is_ascii_upper b = true -> N_of_ascii a = (N_of_ascii b + 32)%N -> Py.upper_char a = b.
Proof.
  unfold is_ascii_upper, Py.upper_char, Py.is_ascii_lower. intros H E.
  apply andb_prop in H. destruct H as [H1 H2].
  apply N.leb_le in H1, H2. rewrite E.
  destruct (N.leb_spec 97 (N_of_ascii b + 32)); [|lia].
  destruct (N.leb_spec (N_of_ascii b + 32) 122); [|lia]. cbn [andb].
  replace (N_of_ascii b + 32 - 32)%N with (N_of_ascii b) by lia.
  apply ascii_N_embedding.
Qed.

Lemma case_variant_upper (a b : ascii) :
  case_variant a b -> Py.upper_char a = Py.upper_char b.
Proof.
  intros [->|[[Hb E]|[Ha E]]].
  - reflexivity.
  - rewrite (upper_char_of_lower _ _ Hb E), (upper_char_of_upper _ Hb). reflexivity.
  - rewrite (upper_char_of_lower _ _ Ha E), (upper_char_of_upper _ Ha). reflexivity.
Qed.

Lemma differ_only_by_case_upper (s1 s2 : Py.str) :
  differ_only_by_case s1 s2 -> Py.upper s1 = Py.upper s2.
Proof.
  induction 1 as [|a b s1 s2 Hab _ IH]; cbn [Py.upper map]; [reflexivity|].
  f_equal; [apply case_variant_upper; exact Hab|exact IH].
Qed.

(** ** More on the order, the strings and the handler *)

Lemma less_or_nan_numbers (a b : float) :
  F64.is_nan a = false -> less_or_nan a b = F64.ltb a b.
Proof. intro H. unfold less_or_nan. rewrite H. reflexivity. Qed.

Lemma forallb_contains_false (s : Py.str) :
  forallb (Py.contains BASES) s = false <-> exists c, In c s /\ ~ In c BASES.
Proof.
  assert (Hin : forall c, Py.contains BASES c = true <-> In c BASES).
  { intro c. unfold Py.contains. rewrite existsb_exists. split.
    - intros (x & Hx & E). apply Ascii.eqb_eq in E. subst x. exact Hx.
    - intro H. exists c. split; [exact H|apply Ascii.eqb_refl]. }
  split.
  - intro H. induction s as [|a s IH]; [discriminate|].
    cbn [forallb] in H. apply andb_false_iff in H. destruct H as [H|H].
    + exists a. split; [left; reflexivity|]. intro Hc. apply Hin in Hc. congruence.
    + destruct (IH H) as (c & Hc & Hn). exists c. split; [right; exact Hc|exact Hn].
  - intros (c & Hc & Hn). apply not_true_iff_false. intro H.
    rewrite forallb_forall in H. apply Hn, Hin, H, Hc.
Qed.


Lemma search_fold_none (score : ascii -> float) (cands : list ascii) :
  fst (fold_left (pick score) cands (None, F64.minus_one)) = None <->
  (forall b, In b cands -> F64.ltb F64.minus_one (score b) = false).
Proof.
  pose proof (search_inv_fold score cands [] _ (search_inv_start score)) as H.
  cbn [app] in H.
  destruct (fold_left (pick score) cands (None, F64.minus_one)) as [[b|] s];
    destruct H as (Hnan & _ & Hmax & Hbest); cbn [fst snd] in *.
  - split; [discriminate|]. intro Hall.
    destruct Hbest as (before & after & -> & _ & Hb & _).
    rewrite Hall in Hb by (apply in_or_app; right; left; reflexivity). discriminate.
  - split; [|reflexivity]. intros _ c Hc. subst s.
    apply not_true_iff_false. intro Hlt. apply ltb_rank in Hlt.
    destruct Hlt as (_ & Hcn & Hlt).
    destruct (Hmax c Hc) as [Hn|Hle]; [congruence|contradiction].
Qed.

Lemma upper_char_base (c : ascii) : In c BASES -> Py.upper_char c = c.
Proof.
  intros [<-|[<-|[<-|[<-|[]]]]]; reflexivity.
Qed.

Lemma contains_bases (c : ascii) : Py.contains BASES c = true <-> In c BASES.
Proof.
  unfold Py.contains. rewrite existsb_exists. split.
  - intros (x & Hx & E). apply Ascii.eqb_eq in E. subst x. exact Hx.
  - intro H. exists c. split; [exact H|apply Ascii.eqb_refl].
Qed.

Lemma upper_of_bases (s : Py.str) :
  forallb (Py.contains BASES) s = true -> Py.upper s = s.
Proof.
  intro H. rewrite forallb_forall in H. unfold Py.upper.
  rewrite <- (map_id s) at 2. apply map_ext_in.
  intros c Hc. apply upper_char_base, contains_bases, H, Hc.
Qed.


Lemma in_firstn {A} (x : A) (n : nat) (l : list A) : In x (firstn n l) -> In x l.
Proof. intro H. rewrite <- (firstn_skipn n l). apply in_or_app. left. exact H. Qed.

Lemma in_skipn {A} (x : A) (n : nat) (l : list A) : In x (skipn n l) -> In x l.
Proof. intro H. rewrite <- (firstn_skipn n l). apply in_or_app. right. exact H. Qed.

Lemma replace_at_bases (s : Py.str) (i : nat) (c : ascii) :
  forallb (Py.contains BASES) s = true -> In c BASES ->
  forallb (Py.contains BASES) (Py.replace_at s i c) = true.
Proof.
  intros Hs Hc. rewrite forallb_forall in *. intros x Hx.
  unfold Py.replace_at, Py.slice_to, Py.slice_from in Hx.
  apply in_app_or in Hx. destruct Hx as [Hx|Hx].
  - apply Hs. eapply in_firstn; eauto.
  - apply in_app_or in Hx. destruct Hx as [[<-|[]]|Hx].
    + apply contains_bases. exact Hc.
    + apply Hs. eapply in_skipn; eauto.
Qed.

Section Handler.
Variable model : Py.str -> model_output.
Variable mean_dim0 : tensor2 -> tensor1.
Variable cosine : tensor1 -> tensor1 -> float.
Variable REFERENCE_EMBEDDINGS : tensor2.

Local Abbreviation score := (score_of model mean_dim0 cosine REFERENCE_EMBEDDINGS).
Local Abbreviation predict := (predict_sequence model mean_dim0 cosine REFERENCE_EMBEDDINGS).

(** The handler on a request that passes the validation, up to the
    diagnosis. *)
Lemma predict_sequence_valid_run (data : Py.str) (log : calls) :
  length (Py.upper data) = 20 ->
  forallb (Py.contains BASES) (Py.upper data) = true ->
  predict data log =
  match find_problematic_position cosine (token_embeddings_of model (Py.upper data))
                                  REFERENCE_EMBEDDINGS with
  | inl e => (Error500 e, log ++ [Py.upper data; Py.upper data])
  | inr index =>
      match nth_error (Py.upper data) index with
      | None => (Error500 IndexError, log ++ [Py.upper data; Py.upper data])
      | Some c =>
          match fold_left (pick (fun b => score (Py.replace_at (Py.upper data) index b)))
                          (alternates c) (None, F64.minus_one) with
          | (None, _) =>
              (Error500 TypeError,
               log ++ [Py.upper data; Py.upper data]
                   ++ map (Py.replace_at (Py.upper data) index) (alternates c))
          | (Some base, edited_score) =>
              match F64.int_of_float (F64.mul edited_score F64.hundred),
                    F64.int_of_float (F64.mul (score (Py.upper data)) F64.hundred) with
              | inr efficiency, inr original_efficiency =>
                  (Ok200 {| originalSequence := Py.upper data;
                            editedSequence := Py.replace_at (Py.upper data) index base;
                            changeIndicator := change_indicator_at index;
                            efficiency := efficiency;
                            changedPosition := index + 1;
                            originalBase := c;
                            newBase := base;
                            message :=
                              if F64.ltb (score (Py.upper data)) edited_score
                              then improves_message original_efficiency efficiency
                              else optimal_message original_efficiency;
                            originalEfficiency := original_efficiency |},
                   log ++ [Py.upper data; Py.upper data]
                       ++ map (Py.replace_at (Py.upper data) index) (alternates c))
              | inl e, _ | inr _, inl e =>
                  (Error500 e,
                   log ++ [Py.upper data; Py.upper data]
                       ++ map (Py.replace_at (Py.upper data) index) (alternates c))
              end
          end
      end
  end.
Proof.
  intros Hlen Hall. unfold predict_sequence, predict_sequence_body.
  rewrite Hlen, Hall. cbn [Nat.eqb negb].
  set (sequence := Py.upper data) in *.
  unfold bind at 1. rewrite get_sequence_score_run.
  unfold bind at 1. unfold predict_edit.
  unfold bind at 1. rewrite get_token_embeddings_run.
  unfold bind at 1.
  rewrite <- !app_assoc. cbn [app].
  destruct (find_problematic_position cosine (token_embeddings_of model sequence)
                                      REFERENCE_EMBEDDINGS) as [e|index];
    cbn [lift]; [reflexivity|].
  unfold ret at 1. unfold bind at 1. rewrite choose_best_alternate_base_run.
  destruct (nth_error sequence index) as [c|] eqn:Hc; [|reflexivity].
  destruct (fold_left (pick (fun b => score (Py.replace_at sequence index b)))
                      (alternates c) (None, F64.minus_one)) as [[base|] edited_score];
    [|rewrite <- !app_assoc; reflexivity].
  unfold ret at 1. unfold bind at 1.
  destruct (F64.int_of_float (F64.mul edited_score F64.hundred)) as [e|eff];
    cbn [lift]; [rewrite <- !app_assoc; reflexivity|].
  unfold ret at 1. unfold bind at 1.
  destruct (F64.int_of_float (F64.mul (score sequence) F64.hundred)) as [e|oeff];
    cbn [lift]; [rewrite <- !app_assoc; reflexivity|].
  unfold ret at 1. unfold bind at 1. unfold getitem. rewrite Hc. cbn [lift].
  unfold ret. rewrite <- !app_assoc. reflexivity.
Qed.

End Handler.

Lemma valid_request_not_invalid (data : Py.str) :
  length (Py.upper data) = 20 -> forallb (Py.contains BASES) (Py.upper data) = true ->
  ~ invalid_request data.
Proof.
  intros Hlen Hall [H|H]; [contradiction|].
  apply forallb_contains_false in H. congruence.
Qed.

Lemma not_invalid_valid_request (data : Py.str) :
  ~ invalid_request data ->
  length (Py.upper data) = 20 /\ forallb (Py.contains BASES) (Py.upper data) = true.
Proof.
  intro H. split.
  - destruct (Nat.eq_dec (length (Py.upper data)) 20) as [E|E]; [exact E|].
    exfalso. apply H. left. exact E.
  - destruct (forallb (Py.contains BASES) (Py.upper data)) eqn:E; [reflexivity|].
    exfalso. apply H. right. apply forallb_contains_false. exact E.
Qed.

Lemma binary_round_aux_opp prec emax (mx ex : Z) (l : location) :
  binary_round_aux prec emax true mx ex l = SFopp (binary_round_aux prec emax false mx ex l).
Proof.
  unfold binary_round_aux.
  destruct (shr_fexp prec emax mx ex l) as [mrs1 e1].
  destruct (shr_fexp prec emax _ e1 loc_Exact) as [mrs2 e2].
  destruct (shr_m mrs2); [reflexivity| |reflexivity].
  destruct (e2 <=? emax - prec)%Z; reflexivity.
Qed.

Lemma mul_hundred_opp (x : float) :
  F64.mul (SFopp x) F64.hundred = SFopp (F64.mul x F64.hundred).
Proof.
  unfold F64.mul, F64.hundred.
  destruct x as [s|s| |s m e]; cbn [SFopp SFmul]; try reflexivity.
  - destruct s; reflexivity.
  - destruct s; reflexivity.
  - destruct s; cbn [negb xorb].
    + rewrite binary_round_aux_opp.
      match goal with
      | |- context [binary_round_aux ?p ?em false ?a ?b ?c] =>
          destruct (binary_round_aux p em false a b c) as [[|]|[|]| |[|] ? ?]
      end; reflexivity.
    + apply binary_round_aux_opp.
Qed.

Lemma int_of_float_opp (x : float) :
  F64.int_of_float (SFopp x) =
  match F64.int_of_float x with inr k => inr (- k)%Z | inl e => inl e end.
Proof.
  destruct x as [s|s| |s m e]; cbn [SFopp F64.int_of_float]; try reflexivity.
  unfold F64.trunc_finite. destruct s; cbn [negb]; f_equal; lia.
Qed.

Lemma leb_minus_one_opp (m : positive) (e : Z) :
  F64.leb F64.minus_one (S754_finite true m e) = F64.leb (S754_finite false m e) F64.one.
Proof.
  unfold F64.leb, SFleb, F64.minus_one, F64.one. cbn [SFcompare].
  rewrite (Z.compare_antisym e (-52)).
  rewrite !Pos.compare_cont_spec. cbn [Pos.switch_Eq].
  rewrite (Pos.compare_antisym m 4503599627370496).
  destruct (e ?= -52)%Z; cbn [CompOpp]; try reflexivity.
  destruct (m ?= 4503599627370496)%positive; reflexivity.
Qed.

(** A similarity in the range of a cosine gives a percentage between -100
    and 100. *)
Lemma percent_of_cosine_range (x : float) :
  in_cosine_range x ->
  exists k, F64.int_of_float (F64.mul x F64.hundred) = inr k /\ (-100 <= k <= 100)%Z.
Proof.
  intros (Hv & Hlow & Hhigh).
  destruct x as [s|s| |[|] m e].
  - exists 0%Z. split; [reflexivity|lia].
  - destruct s; discriminate.
  - discriminate.
  - rewrite leb_minus_one_opp in Hlow.
    destruct (percent_of_unit_interval (S754_finite false m e)) as (k & Hk & Hr);
      [exact Hv|reflexivity|exact Hlow|].
    exists (- k)%Z. split; [|lia].
    change (S754_finite true m e) with (SFopp (S754_finite false m e)).
    rewrite mul_hundred_opp, int_of_float_opp, Hk. reflexivity.
  - destruct (percent_of_unit_interval (S754_finite false m e)) as (k & Hk & Hr);
      [exact Hv|reflexivity|exact Hhigh|].
    exists k. split; [exact Hk|lia].
Qed.


(** * The claims *)

Section Claims.

Variable model : Py.str -> model_output.
Variable mean_dim0 : tensor2 -> tensor1.
Variable cosine : tensor1 -> tensor1 -> float.
Variable hidden_size : nat.
Variable REFERENCE_EMBEDDINGS : tensor2.

Local Abbreviation predict := (predict_sequence model mean_dim0 cosine REFERENCE_EMBEDDINGS).
Local Abbreviation score := (score_of model mean_dim0 cosine REFERENCE_EMBEDDINGS).

(** C2. For a non-empty candidate matrix that is no longer than the
    profile, [find_problematic_position] returns an index [i] below the
    candidate's length at which the per-position cosine similarity
    (candidate row against the profile row of the same position) is a
    minimum, and the first one: no position has a smaller similarity and
    every earlier position has a strictly larger one.  This holds in the
    order [torch.argmin] scans with, in which a NaN precedes every number,
    and in the IEEE order when no similarity is a NaN.  Only the first
    [size0 candidate] rows of the profile are read: a profile with the
    same leading rows gives the same index. *)
Theorem find_problematic_position_first_minimum (candidate profile : tensor2) :
  0 < size0 candidate ->
  size0 candidate <= size0 profile ->
  exists i,
    find_problematic_position cosine candidate profile = inr i /\
    first_minimum less_or_nan (similarity_at cosine candidate profile) (size0 candidate) i /\
    ((forall j, j < size0 candidate ->
        F64.is_nan (similarity_at cosine candidate profile j) = false) ->
     first_minimum F64.ltb (similarity_at cosine candidate profile) (size0 candidate) i) /\
    (forall profile',
        firstn (size0 candidate) profile' = firstn (size0 candidate) profile ->
        find_problematic_position cosine candidate profile' = inr i).
Proof.
  intros Hpos Hle. unfold find_problematic_position, cosine_rows, size0 in *.
  set (sim := similarity_at cosine candidate profile).
  set (window := firstn (length candidate) profile).
  assert (Hw : length window = length candidate)
    by (unfold window; rewrite length_firstn; lia).
  rewrite Hw, Nat.eqb_refl.
  set (sims := map (fun '(a, b) => cosine a b) (combine candidate window)).
  assert (Hlen : length sims = length candidate)
    by (unfold sims; rewrite length_map, length_combine; lia).
  assert (Hnth : forall j, j < length candidate -> nth j sims F64.zero = sim j).
  { intros j Hj. unfold sims, sim, similarity_at.
    rewrite (@nth_map_combine _ _ _ cosine candidate window j [] [] F64.zero) by lia.
    unfold window. rewrite nth_firstn.
    apply Nat.ltb_lt in Hj. rewrite Hj. reflexivity. }
  destruct (@argmin_first_minimum sims) as (i & Hi & Hb & Hmin & Hfirst).
  { intro E. rewrite E in Hlen. simpl in Hlen. lia. }
  rewrite Hlen in *.
  assert (Hfm : first_minimum less_or_nan sim (length candidate) i).
  { split; [exact Hb|]. split.
    - intros j Hj. rewrite <- !Hnth by lia. apply Hmin; exact Hj.
    - intros j Hj. rewrite <- !Hnth by lia. apply Hfirst; exact Hj. }
  exists i. split; [exact Hi|]. split; [exact Hfm|]. split.
  - intro Hnan. destruct Hfm as (_ & H1 & H2). split; [exact Hb|]. split.
    + intros j Hj. rewrite <- less_or_nan_numbers by (apply Hnan; exact Hj). apply H1; exact Hj.
    + intros j Hj. rewrite <- less_or_nan_numbers by (apply Hnan; lia). apply H2; exact Hj.
  - intros profile' E. rewrite E. fold window. rewrite Hw, Nat.eqb_refl. exact Hi.
Qed.

(** C6. For a non-empty list of reference sequences,
    [generate_reference_token_embedding] embeds every reference once, in
    order, and returns a profile whose length is the largest token count
    among the embeddings; its row [i] is the mean over the references of
    the rows [i] of the embeddings padded at their tail to that length,
    where a padded embedding keeps its own rows and has zero vectors after
    them. *)
Theorem generate_reference_token_embedding_profile (sequences : list Py.str) (log : calls) :
  sequences <> [] ->
  exists profile,
    generate_reference_token_embedding model mean_dim0 hidden_size sequences log
    = (Return profile, log ++ sequences) /\
    padded_mean_profile mean_dim0 hidden_size
                        (map (token_embeddings_of model) sequences) profile.
Proof.
  intros Hne.
  set (embeds := map (token_embeddings_of model) sequences).
  set (len := list_max (map size0 embeds)).
  assert (Hmax : forall emb, In emb embeds -> size0 emb <= len).
  { intros emb Hin. unfold len.
    assert (H := proj1 (list_max_le (map size0 embeds) (list_max (map size0 embeds))) (le_n _)).
    rewrite Forall_forall in H. apply H. apply in_map. exact Hin. }
  set (row := fun i => mean_dim0 (map (fun emb => nth i (zero_padded hidden_size len emb) []) embeds)).
  set (profile := map row (seq 0 len)).
  assert (Hsize : size0 profile = len)
    by (unfold profile, size0; rewrite length_map, length_seq; reflexivity).
  exists profile. unfold padded_mean_profile. rewrite Hsize. split; [|split; [|split]].
  - unfold generate_reference_token_embedding, bind at 1.
    rewrite embed_loop_run. cbn [app]. fold embeds.
    rewrite fold_left_max. cbn [Nat.max]. fold len.
    rewrite (map_ext _ (zero_padded hidden_size len)) by (intro; apply pad_branch).
    unfold stack_mean.
    destruct embeds as [|e0 rest] eqn:E.
    { apply map_eq_nil in E. contradiction. }
    cbn [map]. rewrite zero_padded_size by (apply Hmax; left; reflexivity).
    assert (Hall : forallb (fun m => size0 m =? len)
                           (zero_padded hidden_size len e0 :: map (zero_padded hidden_size len) rest) = true).
    { rewrite <- (map_cons (zero_padded hidden_size len)).
      apply forallb_forall. intros m Hm. apply in_map_iff in Hm.
      destruct Hm as (emb & <- & Hin). apply Nat.eqb_eq. apply zero_padded_size, Hmax, Hin. }
    rewrite Hall. cbn [lift]. unfold ret. f_equal. f_equal. unfold profile, row.
    apply map_ext. intro i. f_equal. cbn [map]. f_equal. rewrite map_map. reflexivity.
  - reflexivity.
  - intros i Hi. unfold profile. exact (@nth_map_seq _ row len i [] Hi).
  - intros emb i Hin Hi. split.
    + apply zero_padded_size, Hmax, Hin.
    + apply zero_padded_nth, Hi.
Qed.

(** C4, as the code has it.  A request that is not 20 characters long
    after upper-casing, or that holds a symbol outside A, T, C, G, is
    answered by a 400 response and the encoder is not called (the log is
    unchanged).  The length is checked first and its reason is the fixed
    text "Sequence must be exactly 20 characters long"; a request of 20
    characters with a foreign symbol gets the fixed text "Sequence must
    contain only A, T, C, G", which names the alphabet and not the
    offending symbol. *)
Theorem predict_sequence_rejects_invalid (data : Py.str) (log : calls) :
  invalid_request data ->
  predict data log =
  (Error400 (if length (Py.upper data) =? 20 then alphabet_error else length_error), log).
Proof.
  intro H. unfold predict_sequence, predict_sequence_body.
  destruct (Nat.eqb_spec (length (Py.upper data)) 20) as [Hlen|Hlen]; cbn [negb].
  - destruct H as [H|H]; [contradiction|].
    apply forallb_contains_false in H. rewrite H. reflexivity.
  - reflexivity.
Qed.

(** C5. In a 200 response the field [changeIndicator] is 20 characters
    long, holds a star at the 0-based edited position [changedPosition - 1]
    and a dot everywhere else; for the position 4 it is
    "....*...............". *)
Theorem change_indicator_single_star (data : Py.str) (log log' : calls) (r : PredictionResult) :
  predict data log = (Ok200 r, log') ->
  single_star r /\ change_indicator_at 4 = Py.lit "....*...............".
Proof.
  intro H. apply predict_sequence_ok_inv in H. destruct H as [index S].
  assert (Hi : index < 20).
  { rewrite <- (ok_length S). apply nth_error_Some. rewrite (ok_original_base S). discriminate. }
  split; [|reflexivity]. unfold single_star, edit_index.
  rewrite (ok_position S), (ok_indicator S).
  replace (index + 1 - 1) with index by lia.
  rewrite (change_indicator_at_shape index Hi).
  split; [exact Hi|]. split; [|split; [reflexivity|]].
  - rewrite !length_app, !repeat_length. cbn [length]. lia.
  - intros j Hj.
    destruct (Nat.eqb_spec j index) as [->|Hne].
    + rewrite app_nth2 by (rewrite repeat_length; lia).
      rewrite repeat_length, Nat.sub_diag. reflexivity.
    + destruct (Nat.lt_ge_cases j index) as [Hlt|Hge].
      * rewrite app_nth1 by (rewrite repeat_length; lia). apply nth_repeat_lt. exact Hlt.
      * rewrite app_nth2 by (rewrite repeat_length; lia). rewrite repeat_length.
        destruct (j - index) as [|k] eqn:Ek; [lia|]. cbn [app nth].
        apply nth_repeat_lt. lia.
Qed.



(** C3, as the code has it.  In a 200 response [efficiency] and
    [originalEfficiency] are what [int] makes of the binary64 products of
    the edited and of the original score with 100: the integer part, digits
    after the point dropped.  A score between 0 and 1 gives a percentage
    between 0 and 100 (a negative score gives a negative percentage); the
    float nearest to 0.876 gives 87. *)
Theorem efficiency_truncated_percent
        (data : Py.str) (log log' : calls) (r : PredictionResult) :
  predict data log = (Ok200 r, log') ->
  truncated_percentages (score (originalSequence r)) (score (editedSequence r)) r /\
  (in_unit_interval (score (editedSequence r)) -> (0 <= efficiency r <= 100)%Z) /\
  (in_unit_interval (score (originalSequence r)) -> (0 <= originalEfficiency r <= 100)%Z) /\
  F64.int_of_float (F64.mul (F64.div (F64.of_Z 876) (F64.of_Z 1000)) F64.hundred) = inr 87%Z.
Proof.
  intro H. apply predict_sequence_ok_inv in H. destruct H as [index S].
  unfold truncated_percentages. rewrite (ok_original S).
  split; [split; [exact (ok_efficiency S)|exact (ok_original_efficiency S)]|].
  split; [|split; [|vm_compute; reflexivity]].
  - intros (Hv & H0 & H1).
    destruct (percent_of_unit_interval _ Hv H0 H1) as (k & Hk & Hr).
    rewrite (ok_efficiency S) in Hk. inversion Hk. subst k. exact Hr.
  - intros (Hv & H0 & H1).
    destruct (percent_of_unit_interval _ Hv H0 H1) as (k & Hk & Hr).
    rewrite (ok_original_efficiency S) in Hk. inversion Hk. subst k. exact Hr.
Qed.


(** C9. Two requests that differ only by the case of their letters are
    upper-cased to the same sequence before validation and embedding:
    the handler treats them alike, and the scores computed for them are
    equal. *)
Theorem predict_sequence_case_insensitive (s1 s2 : Py.str) (log : calls) :
  differ_only_by_case s1 s2 ->
  Py.upper s1 = Py.upper s2 /\
  predict s1 log = predict s2 log /\
  get_sequence_score model mean_dim0 cosine (Py.upper s1) REFERENCE_EMBEDDINGS log =
  get_sequence_score model mean_dim0 cosine (Py.upper s2) REFERENCE_EMBEDDINGS log.
Proof.
  intro H. apply differ_only_by_case_upper in H.
  split; [exact H|].
  unfold predict_sequence, predict_sequence_body. rewrite H. split; reflexivity.
Qed.

End Claims.

(** ** The claims on the small encoder *)

Lemma find_problematic_position_first_minimum_witness :
  exists i,
    find_problematic_position Demo.cosine Demo.candidate Demo.profile4 = inr i /\
    first_minimum less_or_nan (similarity_at Demo.cosine Demo.candidate Demo.profile4)
                  (size0 Demo.candidate) i /\
    ((forall j, j < size0 Demo.candidate ->
        F64.is_nan (similarity_at Demo.cosine Demo.candidate Demo.profile4 j) = false) ->
     first_minimum F64.ltb (similarity_at Demo.cosine Demo.candidate Demo.profile4)
                   (size0 Demo.candidate) i) /\
    (forall profile',
        firstn (size0 Demo.candidate) profile' = firstn (size0 Demo.candidate) Demo.profile4 ->
        find_problematic_position Demo.cosine Demo.candidate profile' = inr i).
Proof.
  apply (find_problematic_position_first_minimum Demo.cosine Demo.candidate Demo.profile4);
    vm_compute; lia.
Defined.

Lemma generate_reference_token_embedding_profile_witness :
  exists profile,
    generate_reference_token_embedding Demo.model Demo.mean_dim0 Demo.hidden_size
                                       REFERENCE_SEQUENCES []
    = (Return profile, [] ++ REFERENCE_SEQUENCES) /\
    padded_mean_profile Demo.mean_dim0 Demo.hidden_size
                        (map (token_embeddings_of Demo.model) REFERENCE_SEQUENCES) profile.
Proof.
  apply (generate_reference_token_embedding_profile
           Demo.model Demo.mean_dim0 Demo.hidden_size REFERENCE_SEQUENCES []).
  discriminate.
Defined.

Lemma predict_sequence_rejects_invalid_witness :
  Demo.predict (Py.lit "ATCGN") [] =
  (Error400 (if length (Py.upper (Py.lit "ATCGN")) =? 20 then alphabet_error else length_error),
   []).
Proof.
  apply (predict_sequence_rejects_invalid
           Demo.model Demo.mean_dim0 Demo.cosine Demo.REFERENCE_EMBEDDINGS (Py.lit "ATCGN") []).
  left. vm_compute. discriminate.
Defined.

(** C4, as the claim has it, fails: the 20-character request
    "ATCGNATCGATCGATCGATC" is turned down with a reason in which the
    offending symbol N does not occur, and the request "ATCGN" of the
    specification is turned down for its length. *)
Lemma alphabet_error_omits_symbol :
  fst (Demo.predict (Py.lit "ATCGNATCGATCGATCGATC") []) = Error400 alphabet_error /\
  ~ In "N"%char alphabet_error /\
  fst (Demo.predict (Py.lit "ATCGN") []) = Error400 length_error.
Proof.
  split; [vm_compute; reflexivity|]. split; [|vm_compute; reflexivity].
  vm_compute. intuition discriminate.
Qed.

Lemma change_indicator_single_star_witness :
  single_star Demo.body /\ change_indicator_at 4 = Py.lit "....*...............".
Proof.
  apply (change_indicator_single_star
           Demo.model Demo.mean_dim0 Demo.cosine Demo.REFERENCE_EMBEDDINGS
           Demo.request [] (snd Demo.run) Demo.body).
  vm_compute. reflexivity.
Defined.



Lemma efficiency_truncated_percent_witness :
  truncated_percentages (Demo.score (originalSequence Demo.body))
                        (Demo.score (editedSequence Demo.body)) Demo.body /\
  (in_unit_interval (Demo.score (editedSequence Demo.body)) ->
   (0 <= efficiency Demo.body <= 100)%Z) /\
  (in_unit_interval (Demo.score (originalSequence Demo.body)) ->
   (0 <= originalEfficiency Demo.body <= 100)%Z) /\
  F64.int_of_float (F64.mul (F64.div (F64.of_Z 876) (F64.of_Z 1000)) F64.hundred) = inr 87%Z.
Proof.
  apply (efficiency_truncated_percent
           Demo.model Demo.mean_dim0 Demo.cosine Demo.REFERENCE_EMBEDDINGS
           Demo.request [] (snd Demo.run) Demo.body).
  vm_compute. reflexivity.
Defined.

(** C3, as the claim has it, fails: the all-A request gets a 200 response
    whose two percentages are negative.  The request pools to [(1, 0)] and
    the profile to [(-28, 44) / 60]: a cosine of about -0.54, hence -53;
    the edited sequence pools to [(0.9, 0.05)]: a cosine of about -0.49,
    hence -48. *)
Lemma efficiency_negative :
  Demo.predict Demo.poly_a [] = (Ok200 Demo.body_poly_a, snd Demo.run_poly_a) /\
  efficiency Demo.body_poly_a = (-48)%Z /\ originalEfficiency Demo.body_poly_a = (-53)%Z.
Proof.
  split; [vm_compute; reflexivity|]. split; reflexivity.
Qed.

Lemma predict_sequence_case_insensitive_witness :
  Py.upper Demo.request = Py.upper Demo.sequence /\
  Demo.predict Demo.request [] = Demo.predict Demo.sequence [] /\
  get_sequence_score Demo.model Demo.mean_dim0 Demo.cosine (Py.upper Demo.request)
                     Demo.REFERENCE_EMBEDDINGS [] =
  get_sequence_score Demo.model Demo.mean_dim0 Demo.cosine (Py.upper Demo.sequence)
                     Demo.REFERENCE_EMBEDDINGS [].
Proof.
  apply (predict_sequence_case_insensitive
           Demo.model Demo.mean_dim0 Demo.cosine Demo.REFERENCE_EMBEDDINGS
           Demo.request Demo.sequence []).
  unfold differ_only_by_case, Demo.request, Demo.sequence. cbn [Py.lit list_ascii_of_string].
  repeat (constructor; [right; left; split; reflexivity|]). constructor.
Defined.

(** C1 at inputs on which the code has no proposal.  With the one-row
    profile [(0, -1)], the sequence "AAAAAAAAAAATTTTTTTTT" and the
    position 0, each of the three mutated sequences holds ten [A] and
    pools to [(0, 0.5)], exactly opposite to the profile: each alternate
    scores -1.0, none is strictly above the starting value -1 of the best
    score, and the search returns no base.  With a profile of NaN every
    score is a NaN, no comparison succeeds either, and the handler fails
    on the concatenation of the missing base. *)
Theorem choose_best_alternate_base_no_proposal :
  (forall b, In b (alternates "A"%char) ->
     score_of Demo.model Demo.mean_dim0 Demo.cosine Demo.opposite_profile
              (Py.replace_at Demo.half_a 0 b) = F64.minus_one) /\
  choose_best_alternate_base Demo.model Demo.mean_dim0 Demo.cosine
                             Demo.half_a 0 Demo.opposite_profile [] =
  (Return (None, F64.minus_one),
   [Py.lit "TAAAAAAAAAATTTTTTTTT"; Py.lit "CAAAAAAAAAATTTTTTTTT";
    Py.lit "GAAAAAAAAAATTTTTTTTT"]) /\
  fst (choose_best_alternate_base Demo.model Demo.mean_dim0 Demo.cosine
                                  Demo.half_a 0 Demo.nan_profile []) =
  Return (None, F64.minus_one) /\
  fst (predict_sequence Demo.model Demo.mean_dim0 Demo.cosine Demo.nan_profile
                        Demo.half_a []) = Error500 TypeError.
Proof.
  split; [|split; [vm_compute; reflexivity|split; vm_compute; reflexivity]].
  intros b Hb. cbn in Hb.
  destruct Hb as [<-|[<-|[<-|[]]]]; vm_compute; reflexivity.
Qed.

(** * Further properties of the code *)

Section Further.

Variable model : Py.str -> model_output.
Variable mean_dim0 : tensor2 -> tensor1.
Variable cosine : tensor1 -> tensor1 -> float.
Variable REFERENCE_EMBEDDINGS : tensor2.

Local Abbreviation predict := (predict_sequence model mean_dim0 cosine REFERENCE_EMBEDDINGS).
Local Abbreviation score := (score_of model mean_dim0 cosine REFERENCE_EMBEDDINGS).

(** X1. At a position that holds the symbol [c], when at least one
    alternate scores strictly above -1, the search returns one proposal
    after embedding the three mutated sequences in alphabet order: a base
    of the alphabet other than [c], with the score of its mutated
    sequence; no alternate scores strictly higher, and every alternate
    tried before it scores strictly lower (or NaN). *)
Theorem choose_best_alternate_base_proposal
        (seq : Py.str) (idx : nat) (reference : tensor2) (log : calls) (c b0 : ascii) :
  nth_error seq idx = Some c ->
  In b0 (alternates c) ->
  F64.ltb F64.minus_one
          (score_of model mean_dim0 cosine reference (Py.replace_at seq idx b0)) = true ->
  exists base,
    choose_best_alternate_base model mean_dim0 cosine seq idx reference log =
    (Return (Some base, score_of model mean_dim0 cosine reference (Py.replace_at seq idx base)),
     log ++ map (Py.replace_at seq idx) (alternates c)) /\
    best_alternate (fun b => score_of model mean_dim0 cosine reference (Py.replace_at seq idx b))
                   c base.
Proof.
  intros Hc Hb0 Habove.
  set (sc := fun b => score_of model mean_dim0 cosine reference (Py.replace_at seq idx b)).
  rewrite choose_best_alternate_base_run, Hc. fold sc.
  pose proof (search_inv_fold sc (alternates c) [] _ (search_inv_start sc)) as H.
  cbn [app] in H.
  destruct (fold_left (pick sc) (alternates c) (None, F64.minus_one)) as [[base|] s] eqn:E.
  - destruct H as (Hnan & _ & Hmax & before & after & Hsplit & Hs & Hpos & Hbefore).
    cbn [fst snd] in *. subst s.
    assert (Hin : In base (alternates c))
      by (rewrite Hsplit; apply in_or_app; right; left; reflexivity).
    apply alternates_spec in Hin. destruct Hin as [Hbase Hne].
    exists base. split; [reflexivity|]. unfold best_alternate.
    split; [exact Hbase|]. split; [exact Hne|]. split; [exact Hpos|]. split.
    + intros b Hb. apply not_true_iff_false. intro Hlt. apply ltb_rank in Hlt.
      destruct Hlt as (_ & Hbn & Hlt).
      destruct (Hmax b Hb) as [Hn|Hle]; [congruence|contradiction].
    + exists before, after. split; [exact Hsplit|exact Hbefore].
  - exfalso. assert (Hnone : fst (fold_left (pick sc) (alternates c) (None, F64.minus_one)) = None)
      by (rewrite E; reflexivity).
    rewrite search_fold_none in Hnone. specialize (Hnone b0 Hb0).
    unfold sc in Hnone. congruence.
Qed.

(** X2. At a position that holds the symbol [c] the search returns no
    base exactly when no alternate scores strictly above -1 (each scores
    -1 or less, or NaN); the best score it then returns is the starting
    value -1. *)
Theorem choose_best_alternate_base_none_iff
        (seq : Py.str) (idx : nat) (reference : tensor2) (log : calls) (c : ascii) :
  nth_error seq idx = Some c ->
  (choose_best_alternate_base model mean_dim0 cosine seq idx reference log =
   (Return (None, F64.minus_one), log ++ map (Py.replace_at seq idx) (alternates c))
   <->
   forall b, In b (alternates c) ->
     F64.ltb F64.minus_one
             (score_of model mean_dim0 cosine reference (Py.replace_at seq idx b)) = false).
Proof.
  intro Hc.
  set (sc := fun b => score_of model mean_dim0 cosine reference (Py.replace_at seq idx b)).
  rewrite choose_best_alternate_base_run, Hc. fold sc.
  etransitivity; [|exact (search_fold_none sc (alternates c))].
  pose proof (search_inv_fold sc (alternates c) [] _ (search_inv_start sc)) as H.
  destruct (fold_left (pick sc) (alternates c) (None, F64.minus_one)) as [[base|] s];
    cbn [fst snd] in *.
  - split; intro E; [inversion E|discriminate].
  - destruct H as (_ & _ & _ & H). cbn [fst snd] in H. subst s. split; reflexivity.
Qed.


(** X4. The handler answers 400 exactly for the requests the validation
    turns down: a wrong length after upper-casing, or a symbol outside the
    alphabet.  Every other request ends in a 200 or a 500 response. *)
Theorem predict_sequence_400_iff_invalid (data : Py.str) (log : calls) :
  (exists reason, fst (predict data log) = Error400 reason) <-> invalid_request data.
Proof.
  split.
  - intros (reason & H).
    destruct (Nat.eq_dec (length (Py.upper data)) 20) as [Hlen|Hlen]; [|left; exact Hlen].
    destruct (forallb (Py.contains BASES) (Py.upper data)) eqn:Hall;
      [|right; apply forallb_contains_false; exact Hall].
    exfalso. rewrite (predict_sequence_valid_run _ _ _ _ _ _ Hlen Hall) in H.
    destruct (find_problematic_position _ _ _); [discriminate|].
    destruct (nth_error _ _); [|discriminate].
    destruct (fold_left _ _ _) as [[b|] s]; [|discriminate].
    destruct (F64.int_of_float (F64.mul s F64.hundred)); [discriminate|].
    destruct (F64.int_of_float _); discriminate.
  - intro H. unfold predict_sequence, predict_sequence_body.
    destruct (Nat.eqb_spec (length (Py.upper data)) 20) as [Hlen|Hlen]; cbn [negb].
    + destruct H as [H|H]; [contradiction|].
      apply forallb_contains_false in H. rewrite H. eexists. reflexivity.
    + eexists. reflexivity.
Qed.

(** X5. The diagnosed token index is used as a character index: when it
    is 20 or more (the encoder gave more than 20 tokens), a valid request
    costs two encoder calls and ends in a 500 response carrying the
    [IndexError] of [seq[idx]]. *)
Theorem predict_sequence_index_out_of_range (data : Py.str) (log : calls) (index : nat) :
  ~ invalid_request data ->
  find_problematic_position cosine (token_embeddings_of model (Py.upper data))
                            REFERENCE_EMBEDDINGS = inr index ->
  20 <= index ->
  predict data log = (Error500 IndexError, log ++ [Py.upper data; Py.upper data]).
Proof.
  intros Hv Hidx Hge. apply not_invalid_valid_request in Hv. destruct Hv as [Hlen Hall].
  rewrite (predict_sequence_valid_run _ _ _ _ _ _ Hlen Hall), Hidx.
  assert (E : nth_error (Py.upper data) index = None) by (apply nth_error_None; lia).
  rewrite E. reflexivity.
Qed.

(** X6. The edited sequence of a 200 response is itself a valid request:
    submitted in turn it is never answered 400, and if it is answered 200
    its original sequence is that edited sequence and its original
    percentage is the percentage the first response gave for the edit. *)
Theorem predict_sequence_resubmit (data : Py.str) (log log' : calls) (r : PredictionResult) :
  predict data log = (Ok200 r, log') ->
  ~ invalid_request (editedSequence r) /\
  (forall log2 r2 log2',
      predict (editedSequence r) log2 = (Ok200 r2, log2') ->
      originalSequence r2 = editedSequence r /\ originalEfficiency r2 = efficiency r).
Proof.
  intro H. apply predict_sequence_ok_inv in H. destruct H as [index S].
  assert (Hi : index < length (Py.upper data)).
  { apply nth_error_Some. rewrite (ok_original_base S). discriminate. }
  assert (Hnew : In (newBase r) BASES).
  { pose proof (ok_new_base S) as Hn. apply alternates_spec in Hn. tauto. }
  assert (Hall : forallb (Py.contains BASES) (editedSequence r) = true).
  { rewrite (ok_edited S). apply replace_at_bases; [exact (ok_alphabet S)|exact Hnew]. }
  assert (Hup : Py.upper (editedSequence r) = editedSequence r) by (apply upper_of_bases, Hall).
  assert (Hlen : length (editedSequence r) = 20).
  { rewrite (ok_edited S), replace_at_length by exact Hi. exact (ok_length S). }
  split.
  - apply valid_request_not_invalid; rewrite Hup; assumption.
  - intros log2 r2 log2' H2. apply predict_sequence_ok_inv in H2. destruct H2 as [index2 S2].
    rewrite (ok_original S2), Hup. split; [reflexivity|].
    pose proof (ok_original_efficiency S2) as E2. rewrite Hup in E2.
    rewrite (ok_efficiency S) in E2. inversion E2. reflexivity.
Qed.

(** X7. In a 200 response, scores in the range of a cosine, from -1 to 1,
    give percentages between -100 and 100: the two percentages are bounded
    in absolute value by 100 although they may be negative. *)
Theorem predict_sequence_percent_range
        (data : Py.str) (log log' : calls) (r : PredictionResult) :
  predict data log = (Ok200 r, log') ->
  in_cosine_range (score (originalSequence r)) ->
  in_cosine_range (score (editedSequence r)) ->
  (-100 <= originalEfficiency r <= 100)%Z /\ (-100 <= efficiency r <= 100)%Z.
Proof.
  intros H Ho He. apply predict_sequence_ok_inv in H. destruct H as [index S].
  rewrite (ok_original S) in Ho.
  destruct (percent_of_cosine_range _ Ho) as (k1 & Hk1 & Hr1).
  destruct (percent_of_cosine_range _ He) as (k2 & Hk2 & Hr2).
  rewrite (ok_original_efficiency S) in Hk1. rewrite (ok_efficiency S) in Hk2.
  inversion Hk1. inversion Hk2. subst. split; assumption.
Qed.

End Further.

(** ** The further properties on the small encoder *)

Lemma choose_best_alternate_base_proposal_witness :
  exists base,
    choose_best_alternate_base Demo.model Demo.mean_dim0 Demo.cosine
                               Demo.sequence 19 Demo.REFERENCE_EMBEDDINGS [] =
    (Return (Some base, Demo.score (Py.replace_at Demo.sequence 19 base)),
     [] ++ map (Py.replace_at Demo.sequence 19) (alternates "G"%char)) /\
    best_alternate (fun b => Demo.score (Py.replace_at Demo.sequence 19 b)) "G"%char base.
Proof.
  apply (choose_best_alternate_base_proposal
           Demo.model Demo.mean_dim0 Demo.cosine Demo.sequence 19
           Demo.REFERENCE_EMBEDDINGS [] "G"%char "A"%char).
  - vm_compute. reflexivity.
  - vm_compute. left. reflexivity.
  - vm_compute. reflexivity.
Defined.

Lemma choose_best_alternate_base_none_iff_witness :
  choose_best_alternate_base Demo.model Demo.mean_dim0 Demo.cosine
                             Demo.half_a 0 Demo.opposite_profile [] =
  (Return (None, F64.minus_one), [] ++ map (Py.replace_at Demo.half_a 0) (alternates "A"%char))
  <->
  (forall b, In b (alternates "A"%char) ->
     F64.ltb F64.minus_one
             (score_of Demo.model Demo.mean_dim0 Demo.cosine Demo.opposite_profile
                       (Py.replace_at Demo.half_a 0 b)) = false).
Proof.
  apply (choose_best_alternate_base_none_iff
           Demo.model Demo.mean_dim0 Demo.cosine Demo.half_a 0 Demo.opposite_profile []
           "A"%char).
  vm_compute. reflexivity.
Defined.


Lemma predict_sequence_index_out_of_range_witness :
  predict_sequence Demo.long_model Demo.mean_dim0 Demo.cosine Demo.long_profile
                   Demo.request [] =
  (Error500 IndexError, [] ++ [Py.upper Demo.request; Py.upper Demo.request]).
Proof.
  apply (predict_sequence_index_out_of_range
           Demo.long_model Demo.mean_dim0 Demo.cosine Demo.long_profile
           Demo.request [] 21).
  - apply valid_request_not_invalid; vm_compute; reflexivity.
  - vm_compute. reflexivity.
  - lia.
Defined.

Lemma predict_sequence_resubmit_witness :
  ~ invalid_request (editedSequence Demo.body) /\
  (forall log2 r2 log2',
      Demo.predict (editedSequence Demo.body) log2 = (Ok200 r2, log2') ->
      originalSequence r2 = editedSequence Demo.body /\
      originalEfficiency r2 = efficiency Demo.body).
Proof.
  apply (predict_sequence_resubmit
           Demo.model Demo.mean_dim0 Demo.cosine Demo.REFERENCE_EMBEDDINGS
           Demo.request [] (snd Demo.run) Demo.body).
  vm_compute. reflexivity.
Defined.

Lemma predict_sequence_percent_range_witness :
  (-100 <= originalEfficiency Demo.body_poly_a <= 100)%Z /\
  (-100 <= efficiency Demo.body_poly_a <= 100)%Z.
Proof.
  apply (predict_sequence_percent_range
           Demo.model Demo.mean_dim0 Demo.cosine Demo.REFERENCE_EMBEDDINGS
           Demo.poly_a [] (snd Demo.run_poly_a) Demo.body_poly_a).
  - vm_compute. reflexivity.
  - repeat split; vm_compute; reflexivity.
  - repeat split; vm_compute; reflexivity.
Defined.
